(** * DS1302 three-wire RTC driver (raspi_peri/rtc/ds1302.py)

    A shallow embedding of the bit-banged DS1302 driver.  The driver talks to
    the chip only through the pin-control object [self.gpio]; every call it
    makes on that object (and every [time.sleep]) is recorded, in order, in a
    call history.  Driver methods are computations over that history which may
    raise a Python exception. *)

From Stdlib Require Import ZArith List String Ascii Bool Lia.
Import ListNotations.
Local Open Scope Z_scope.

(** ** The pin-control capability consumed by the driver (raspi_io.GPIO) *)

Module GPIO.

Definition LOW : Z := 0.
Definition HIGH : Z := 1.

Inductive direction := IN | OUT.
Inductive numbering := BOARD | BCM.

(** One entry per call the driver issues; [sleep] is [time.sleep], kept in
    the same history so that the order of delays and edges is visible. *)
Inductive call :=
| setmode (m : numbering)
| setup (pins : list Z) (d : direction) (initial : option Z)
| output (pin value : Z)
| input (pin : Z)
| cleanup (pins : list Z)
| sleep (us : Z).

End GPIO.
Import GPIO.

(** ** Computations: call history plus exceptions *)

Inductive exn := ValueError | TypeError.

Inductive result (A : Type) :=
| Ok (a : A)
| Raise (e : exn).
Arguments Ok {A} a.
Arguments Raise {A} e.

Definition M (A : Type) : Type := list call -> result A * list call.

Definition ret {A} (a : A) : M A := fun h => (Ok a, h).

Definition raise {A} (e : exn) : M A := fun h => (Raise e, h).

Definition bind {A B} (m : M A) (k : A -> M B) : M B :=
  fun h =>
    match m h with
    | (Ok a, h') => k a h'
    | (Raise e, h') => (Raise e, h')
    end.

Notation "x <- m ;; k" := (bind m (fun x => k))
  (at level 61, m at next level, right associativity).
Notation "m ;; k" := (bind m (fun _ => k))
  (at level 61, right associativity).

Definition emit (c : call) : M unit := fun h => (Ok tt, h ++ [c]).

(** [for x in xs: s = body(x, s)] with the loop-carried locals in [s]. *)
Fixpoint for_ {A S} (xs : list A) (body : A -> S -> M S) (s : S) : M S :=
  match xs with
  | [] => ret s
  | x :: xs' => s' <- body x s ;; for_ xs' body s'
  end.

Definition range (n : Z) : list Z := map Z.of_nat (seq 0 (Z.to_nat n)).

Definition len {A} (l : list A) : Z := Z.of_nat (List.length l).

(** [l[i:j]] for [0 <= i <= j]. *)
Definition slice {A} (l : list A) (i j : Z) : list A :=
  firstn (Z.to_nat (j - i)) (skipn (Z.to_nat i) l).

(** [ord] of a bytes object: defined on length one only. *)
Definition ord (bs : list Z) : M Z :=
  match bs with
  | [b] => ret b
  | _ => raise TypeError
  end.

(** raspi_io's [GPIOTimingContentManager(gpio, start, end)]: [__enter__]
    calls [start(gpio)], [__exit__] calls [end(gpio)]; [__exit__] runs also
    when the body raised, and the body's exception then propagates. *)
Definition GPIOTimingContentManager {A}
    (start end_ : M unit) (body : M A) : M A :=
  fun h =>
    match start h with
    | (Raise e, h1) => (Raise e, h1)
    | (Ok _, h1) =>
        let (r, h2) := body h1 in
        match end_ h2 with
        | (Ok _, h3) => (r, h3)
        | (Raise e, h3) => (Raise e, h3)
        end
    end.

(** ** Text: the string operations the codec is written with *)

Module Text.

Local Open Scope string_scope.

Definition code (c : ascii) : N := N_of_ascii c.

Definition between (lo hi c : ascii) : bool :=
  (code lo <=? code c)%N && (code c <=? code hi)%N.

Definition is_char (a c : ascii) : bool := (code a =? code c)%N.

Definition is_digit : ascii -> bool := between "0" "9".

(** Whitespace as [str.split()] and the regex class [\s] see it, within
    ASCII: tab, line feed, vertical tab, form feed, carriage return, the
    four separators 0x1c-0x1f and space. *)
Definition is_space (c : ascii) : bool :=
  between "009" "013" c || between "028" "031" c || is_char " " c.

Definition digit_char (d : Z) : ascii :=
  nth (Z.to_nat d)
    ["0"; "1"; "2"; "3"; "4"; "5"; "6"; "7"; "8"; "9";
     "a"; "b"; "c"; "d"; "e"; "f"]%char "?"%char.

(** Value of a hexadecimal digit, either case. *)
Definition hex_value (c : ascii) : option Z :=
  if is_digit c then Some (Z.of_N (code c) - 48)
  else if between "a" "f" c then Some (Z.of_N (code c) - 87)
  else if between "A" "F" c then Some (Z.of_N (code c) - 55)
  else None.

Definition dec_value (c : ascii) : option Z :=
  if is_digit c then Some (Z.of_N (code c) - 48) else None.

Fixpoint digits_value (base : Z) (value : ascii -> option Z)
    (s : string) (acc : Z) : option Z :=
  match s with
  | "" => Some acc
  | String c s' =>
      match value c with
      | Some d => digits_value base value s' (base * acc + d)
      | None => None
      end
  end.

(** [int(s)] on a non-empty run of decimal digits. *)
Definition int10 (s : string) : result Z :=
  match s with
  | "" => Raise ValueError
  | _ =>
      match digits_value 10 dec_value s 0 with
      | Some v => Ok v
      | None => Raise ValueError
      end
  end.

(** [int(s, 16)] on an optional [0x]/[0X] prefix followed by a non-empty
    run of hexadecimal digits (sign, blanks and underscores, which the
    driver never produces, are not accepted here). *)
Definition int16 (s : string) : result Z :=
  let body :=
    match s with
    | String "0" (String "x" s') => s'
    | String "0" (String "X" s') => s'
    | _ => s
    end in
  match body with
  | "" => Raise ValueError
  | _ =>
      match digits_value 16 hex_value body 0 with
      | Some v => Ok v
      | None => Raise ValueError
      end
  end.

Fixpoint hex_digits (fuel : nat) (x : Z) (acc : string) : string :=
  match fuel with
  | O => acc
  | S fuel' =>
      let acc' := String (digit_char (x mod 16)) acc in
      if (x / 16 =? 0)%Z then acc' else hex_digits fuel' (x / 16) acc'
  end.

(** ["{:x}".format(x)]: lower-case hexadecimal, no prefix, no padding. *)
Definition format_x (x : Z) : string :=
  if (x <? 0)%Z
  then "-" ++ hex_digits (S (Z.to_nat (Z.log2 (- x)))) (- x) ""
  else hex_digits (S (Z.to_nat (Z.log2 x))) x "".

(** C's [%02d] on a value in 0..99, as [strftime] applies it. *)
Definition pad2 (v : Z) : string :=
  String (digit_char (v / 10 mod 10)) (String (digit_char (v mod 10)) "").

(** [sep.join(words)]. *)
Fixpoint join (sep : string) (words : list string) : string :=
  match words with
  | [] => ""
  | [w] => w
  | w :: ws => w ++ sep ++ join sep ws
  end.

(** [s.split()]: the maximal runs of non-whitespace characters; [word] is
    the run being collected. *)
Fixpoint split_from (s : string) (word : string) : list string :=
  match s with
  | "" => match word with "" => [] | _ => [word] end
  | String c s' =>
      if is_space c
      then match word with
           | "" => split_from s' ""
           | _ => word :: split_from s' ""
           end
      else split_from s' (word ++ String c "")
  end.

Definition split (s : string) : list string := split_from s "".

End Text.

(** ** Calendar values: the part of Python's [datetime] the codec uses *)

Module Datetime.

Import Text.

(** The time zone of an aware object: a fixed-offset [datetime.timezone],
    given by its offset from UTC in microseconds. *)
Record timezone := { _offset : Z }.

(** A [datetime.datetime]: the fields its constructor takes, which are also
    the ones [==] compares.  An object whose [tzinfo] is [None] is naive.
    [fold] is left out: neither [strftime] nor [==] reads it. *)
Record datetime := {
  year : Z;
  month : Z;
  day : Z;
  hour : Z;
  minute : Z;
  second : Z;
  microsecond : Z;
  tzinfo : option timezone
}.

Definition MINYEAR : Z := 1.
Definition MAXYEAR : Z := 9999.

Definition _DAYS_IN_MONTH : list Z :=
  [-1; 31; 28; 31; 30; 31; 30; 31; 31; 30; 31; 30; 31].

Definition _DAYS_BEFORE_MONTH : list Z :=
  [-1; 0; 31; 59; 90; 120; 151; 181; 212; 243; 273; 304; 334].

Definition _is_leap (y : Z) : bool :=
  (y mod 4 =? 0) && (negb (y mod 100 =? 0) || (y mod 400 =? 0)).

Definition _days_before_year (y : Z) : Z :=
  let y := y - 1 in y * 365 + y / 4 - y / 100 + y / 400.

Definition _days_in_month (y m : Z) : Z :=
  if (m =? 2) && _is_leap y then 29
  else nth (Z.to_nat m) _DAYS_IN_MONTH (-1).

Definition _days_before_month (y m : Z) : Z :=
  nth (Z.to_nat m) _DAYS_BEFORE_MONTH (-1)
  + (if (2 <? m) && _is_leap y then 1 else 0).

Definition _ymd2ord (y m d : Z) : Z :=
  _days_before_year y + _days_before_month y m + d.

Definition toordinal (dt : datetime) : Z :=
  _ymd2ord (year dt) (month dt) (day dt).

(** Monday is 1, Sunday is 7. *)
Definition isoweekday (dt : datetime) : Z :=
  let r := toordinal dt mod 7 in if r =? 0 then 7 else r.

Definition _check_date_fields (y m d : Z) : bool :=
  (MINYEAR <=? y) && (y <=? MAXYEAR)
  && (1 <=? m) && (m <=? 12)
  && (1 <=? d) && (d <=? _days_in_month y m).

Definition _check_time_fields (H Mi Se us : Z) : bool :=
  (0 <=? H) && (H <=? 23) && (0 <=? Mi) && (Mi <=? 59)
  && (0 <=? Se) && (Se <=? 59) && (0 <=? us) && (us <=? 999999).

(** [timezone._maxoffset]: one microsecond short of 24 hours. *)
Definition _maxoffset : Z := 24 * 3600 * 1000000 - 1.

(** The offsets the constructor of [timezone] accepts. *)
Definition _check_offset (tz : option timezone) : bool :=
  match tz with
  | None => true
  | Some tz => (- _maxoffset <=? _offset tz) && (_offset tz <=? _maxoffset)
  end.

(** The values a [datetime] object can hold. *)
Definition valid (dt : datetime) : bool :=
  _check_date_fields (year dt) (month dt) (day dt)
  && _check_time_fields (hour dt) (minute dt) (second dt) (microsecond dt)
  && _check_offset (tzinfo dt).

(** The constructor [datetime(y, m, d, H, M, S, us)]; [tzinfo] takes its
    default [None], so the object is naive. *)
Definition new (y m d H Mi Se us : Z) : result datetime :=
  if _check_date_fields y m d && _check_time_fields H Mi Se us
  then Ok {| year := y; month := m; day := d;
             hour := H; minute := Mi; second := Se;
             microsecond := us; tzinfo := None |}
  else Raise ValueError.

(** *** [strftime] *)

(** What one directive prints.  Only the directives of the driver's format
    are covered; any other letter is treated as a bad directive. *)
Definition strftime_directive (c : ascii) (dt : datetime) : result string :=
  if is_char "S" c then Ok (pad2 (second dt))
  else if is_char "M" c then Ok (pad2 (minute dt))
  else if is_char "H" c then Ok (pad2 (hour dt))
  else if is_char "d" c then Ok (pad2 (day dt))
  else if is_char "m" c then Ok (pad2 (month dt))
  else if is_char "u" c then Ok (String (digit_char (isoweekday dt)) "")
  else if is_char "y" c then Ok (pad2 (year dt mod 100))
  else Raise ValueError.

Fixpoint strftime (dt : datetime) (format : string) : result string :=
  match format with
  | "" => Ok ""
  | String c rest =>
      if is_char "%" c then
        match rest with
        | "" => Raise ValueError
        | String d rest' =>
            match strftime_directive d dt, strftime dt rest' with
            | Ok a, Ok b => Ok (a ++ b)
            | Raise e, _ => Raise e
            | _, Raise e => Raise e
            end
        end
      else
        match strftime dt rest with
        | Ok b => Ok (String c b)
        | Raise e => Raise e
        end
  end%string.

(** *** [strptime]: the regular expression of a format *)

Definition cclass := ascii -> bool.

(** A format compiles to a sequence of: a named group whose alternatives
    are fixed-length sequences of character classes, [\s+], or one
    literal character. *)
Inductive re :=
| Group (name : ascii) (alts : list (list cclass))
| Spaces
| Lit (c : ascii).

Definition d_ : cclass := is_digit.

(** The entries of [_strptime.TimeRE] for the directives of the driver's
    format, alternatives in the order the table lists them. *)
Definition re_d : list (list cclass) :=
  [[is_char "3"; between "0" "1"]; [between "1" "2"; d_];
   [is_char "0"; between "1" "9"]; [between "1" "9"];
   [is_char " "; between "1" "9"]].

Definition re_H : list (list cclass) :=
  [[is_char "2"; between "0" "3"]; [between "0" "1"; d_]; [d_]].

Definition re_m : list (list cclass) :=
  [[is_char "1"; between "0" "2"]; [is_char "0"; between "1" "9"];
   [between "1" "9"]].

Definition re_M : list (list cclass) := [[between "0" "5"; d_]; [d_]].

Definition re_S : list (list cclass) :=
  [[is_char "6"; between "0" "1"]; [between "0" "5"; d_]; [d_]].

Definition re_u : list (list cclass) := [[between "1" "7"]].

Definition re_y : list (list cclass) := [[d_; d_]].

Definition directive_re (c : ascii) : result (list (list cclass)) :=
  if is_char "d" c then Ok re_d
  else if is_char "H" c then Ok re_H
  else if is_char "m" c then Ok re_m
  else if is_char "M" c then Ok re_M
  else if is_char "S" c then Ok re_S
  else if is_char "u" c then Ok re_u
  else if is_char "y" c then Ok re_y
  else Raise ValueError.

(** [TimeRE.pattern]: whitespace runs become [\s+], directives become
    their groups, everything else stands for itself.  [in_ws] tells that
    the previous character was whitespace. *)
Fixpoint pattern (format : string) (in_ws : bool) : result (list re) :=
  match format with
  | "" => Ok []
  | String c rest =>
      if is_space c then
        match pattern rest true with
        | Ok r => Ok (if in_ws then r else Spaces :: r)
        | Raise e => Raise e
        end
      else if is_char "%" c then
        match rest with
        | "" => Raise ValueError
        | String d rest' =>
            match directive_re d, pattern rest' false with
            | Ok alts, Ok r => Ok (Group d alts :: r)
            | Raise e, _ => Raise e
            | _, Raise e => Raise e
            end
        end
      else
        match pattern rest false with
        | Ok r => Ok (Lit c :: r)
        | Raise e => Raise e
        end
  end%string.

(** One alternative against the front of [s]: the text it matched and
    what is left. *)
Fixpoint match_classes (cs : list cclass) (s : string)
    : option (string * string) :=
  match cs with
  | [] => Some (""%string, s)
  | p :: cs' =>
      match s with
      | String c s' =>
          if p c then
            match match_classes cs' s' with
            | Some (m, r) => Some (String c m, r)
            | None => None
            end
          else None
      | _ => None
      end
  end%string.

Definition match_group (alts : list (list cclass)) (s : string)
    : list (string * string) :=
  flat_map
    (fun cs => match match_classes cs s with Some x => [x] | None => [] end)
    alts.

(** [\s+], greedy: the possible remainders, longest match first. *)
Fixpoint match_spaces (s : string) : list string :=
  match s with
  | String c s' => if is_space c then (match_spaces s' ++ [s'])%list else []
  | _ => []
  end%string.

Definition groupdict := list (ascii * string).

(** All ways the pattern matches a prefix of [s], in the order a
    backtracking matcher tries them; [re.match] returns the first. *)
Fixpoint re_match (r : list re) (s : string) (found : groupdict)
    : list (groupdict * string) :=
  match r with
  | [] => [(found, s)]
  | Group name alts :: r' =>
      flat_map
        (fun ms => re_match r' (snd ms) (found ++ [(name, fst ms)])%list)
        (match_group alts s)
  | Spaces :: r' =>
      flat_map (fun s' => re_match r' s' found) (match_spaces s)
  | Lit c :: r' =>
      match s with
      | String c' s' => if is_char c c' then re_match r' s' found else []
      | _ => []
      end
  end%string.

(** *** [strptime]: from the groups to a date *)

(** The locals of [_strptime] that the groups assign. *)
Record fields := {
  f_year : option Z;
  f_month : Z;
  f_day : Z;
  f_hour : Z;
  f_minute : Z;
  f_second : Z;
  f_weekday : option Z
}.

Definition fields0 : fields :=
  {| f_year := None; f_month := 1; f_day := 1;
     f_hour := 0; f_minute := 0; f_second := 0; f_weekday := None |}.

Definition assign (key : ascii) (v : Z) (f : fields) : fields :=
  if is_char "y" key then
    {| f_year := Some (if v <=? 68 then v + 2000 else v + 1900);
       f_month := f_month f; f_day := f_day f; f_hour := f_hour f;
       f_minute := f_minute f; f_second := f_second f;
       f_weekday := f_weekday f |}
  else if is_char "m" key then
    {| f_year := f_year f; f_month := v; f_day := f_day f;
       f_hour := f_hour f; f_minute := f_minute f;
       f_second := f_second f; f_weekday := f_weekday f |}
  else if is_char "d" key then
    {| f_year := f_year f; f_month := f_month f; f_day := v;
       f_hour := f_hour f; f_minute := f_minute f;
       f_second := f_second f; f_weekday := f_weekday f |}
  else if is_char "H" key then
    {| f_year := f_year f; f_month := f_month f; f_day := f_day f;
       f_hour := v; f_minute := f_minute f; f_second := f_second f;
       f_weekday := f_weekday f |}
  else if is_char "M" key then
    {| f_year := f_year f; f_month := f_month f; f_day := f_day f;
       f_hour := f_hour f; f_minute := v; f_second := f_second f;
       f_weekday := f_weekday f |}
  else if is_char "S" key then
    {| f_year := f_year f; f_month := f_month f; f_day := f_day f;
       f_hour := f_hour f; f_minute := f_minute f; f_second := v;
       f_weekday := f_weekday f |}
  else if is_char "u" key then
    {| f_year := f_year f; f_month := f_month f; f_day := f_day f;
       f_hour := f_hour f; f_minute := f_minute f;
       f_second := f_second f; f_weekday := Some (v - 1) |}
  else f.

(** [for group_key in found_dict.keys(): ...]. *)
Fixpoint assign_all (found : groupdict) (f : fields) : result fields :=
  match found with
  | [] => Ok f
  | (key, text) :: found' =>
      match int10 text with
      | Ok v => assign_all found' (assign key v f)
      | Raise e => Raise e
      end
  end.

(** The second half of [_strptime]: from the matched groups to the first
    six entries of the time tuple. *)
Definition time_tuple (found_dict : groupdict)
    : result (Z * Z * Z * Z * Z * Z) :=
  match assign_all found_dict fields0 with
  | Raise e => Raise e
  | Ok f =>
      let y :=
        match f_year f with
        | Some y => y
        | None => if (f_month f =? 2) && (f_day f =? 29) then 1904 else 1900
        end in
      if _check_date_fields y (f_month f) (f_day f)
      then
        let y := match f_year f with Some y => y | None => 1900 end in
        Ok (y, f_month f, f_day f, f_hour f, f_minute f, f_second f)
      else Raise ValueError
  end.

(** [_strptime]: compile the format, match, require that the match
    consumed all of [data_string], convert. *)
Definition _strptime (data_string format : string)
    : result (Z * Z * Z * Z * Z * Z) :=
  match pattern format false with
  | Raise e => Raise e
  | Ok format_regex =>
      match re_match format_regex data_string [] with
      | [] => Raise ValueError
      | (found_dict, rest) :: _ =>
          match rest with
          | String _ _ => Raise ValueError
          | EmptyString => time_tuple found_dict
          end
      end
  end.

(** [datetime.strptime]: [_strptime] followed by the constructor.  None of
    the directives covered is [%f] or [%z]: the fraction handed to the
    constructor is 0 and no time zone is handed to it. *)
Definition strptime (data_string format : string) : result datetime :=
  match _strptime data_string format with
  | Raise e => Raise e
  | Ok (y, m, d, H, Mi, Se) => new y m d H Mi Se 0
  end.

End Datetime.

(** ** The driver object *)

Record DS1302 := {
  _io_pin : Z;
  _clk_pin : Z;
  _rst_pin : Z
}.

Definition REG_SIZE : Z := 7.
Definition RAM_SIZE : Z := 31.

(** [CLK_DELAY = 5e-6] seconds, kept in microseconds. *)
Definition CLK_DELAY : Z := 5.

Definition WP_REG_READ : Z := 0x8f.
Definition WP_REG_WRITE : Z := 0x8e.
Definition CHR_REG_READ : Z := 0x91.
Definition CHR_REG_WRITE : Z := 0x90.
Definition REG_BURST_READ : Z := 0xbf.
Definition REG_BURST_WRITE : Z := 0xbe.
Definition RAM_BURST_READ : Z := 0xff.
Definition RAW_BURST_WRITE : Z := 0xfe.

Definition DT_STR_FMT : string := "%S %M %H %d %m %u %y".

Import Text Datetime.

Definition lift {A} (r : result A) : M A := fun h => (r, h).

(** A list comprehension whose element expression can raise. *)
Fixpoint comprehension {A B} (f : A -> result B) (xs : list A)
    : result (list B) :=
  match xs with
  | [] => Ok []
  | x :: xs' =>
      match f x with
      | Raise e => Raise e
      | Ok y =>
          match comprehension f xs' with
          | Raise e => Raise e
          | Ok ys => Ok (y :: ys)
          end
      end
  end.

(** The decoding expression of [read_datetime]:
    [strptime(" ".join(["{:x}".format(x) for x in regs]), DT_STR_FMT)]. *)
Definition datetime_of_regs (regs : list Z) : result datetime :=
  strptime (join " " (map format_x regs)) DT_STR_FMT.

(** The encoding expression of [write_datetime]:
    [[int("0x{}".format(i), 16) for i in dt.strftime(DT_STR_FMT).split()]
     + [0] * 2]. *)
Definition regs_of_datetime (dt : datetime) : result (list Z) :=
  match strftime dt DT_STR_FMT with
  | Raise e => Raise e
  | Ok text =>
      match comprehension (fun i => int16 ("0x" ++ i)) (split text) with
      | Raise e => Raise e
      | Ok regs => Ok (regs ++ [0; 0])
      end
  end.

Section Driver.

(** The other end of the data line: the level [gpio.input] returns, as a
    function of all calls issued so far. *)
Variable chip : list call -> Z.

Variable self : DS1302.

Definition gpio_input (pin : Z) : M Z :=
  fun h => (Ok (chip h), h ++ [input pin]).

Definition _sleep : M unit := emit (sleep CLK_DELAY).

Definition _start_tx : M unit :=
  emit (output (_clk_pin self) LOW) ;;
  emit (output (_rst_pin self) HIGH).

Definition _end_tx : M unit :=
  emit (setup [_io_pin self] IN None) ;;
  emit (output (_clk_pin self) LOW) ;;
  emit (output (_rst_pin self) LOW).

Definition _read_byte : M Z :=
  emit (setup [_io_pin self] IN None) ;;
  for_ (range 8)
    (fun i byte =>
       emit (output (_clk_pin self) HIGH) ;;
       _sleep ;;
       emit (output (_clk_pin self) LOW) ;;
       _sleep ;;
       bit <- gpio_input (_io_pin self) ;;
       ret (Z.lor byte (2 ^ i * bit)))
    0.

Definition _write_byte (byte : Z) : M unit :=
  emit (setup [_io_pin self] OUT None) ;;
  for_ (range 8)
    (fun _ byte =>
       emit (output (_clk_pin self) LOW) ;;
       _sleep ;;
       emit (output (_io_pin self) (Z.land byte 0x01)) ;;
       let byte := Z.shiftr byte 1 in
       emit (output (_clk_pin self) HIGH) ;;
       _sleep ;;
       ret byte)
    byte ;;
  ret tt.

Definition transaction {A} (body : M A) : M A :=
  GPIOTimingContentManager _start_tx _end_tx body.

(** [__init__], from [setmode] on; opening the connection to the GPIO
    server issues no pin call. *)
Definition __init__ (mode : numbering) : M unit :=
  emit (setmode mode) ;;
  emit (setup [_clk_pin self; _rst_pin self] OUT (Some LOW)) ;;
  transaction (_write_byte WP_REG_WRITE ;; _write_byte 0x00) ;;
  transaction (_write_byte CHR_REG_WRITE ;; _write_byte 0x00).

Definition __del__ : M unit :=
  emit (cleanup [_io_pin self; _clk_pin self; _rst_pin self]).

(** [ram.append(item)] on a [bytearray]: the item has to be in
    [range(256)]. *)
Definition bytearray_append (ram : list Z) (item : Z) : M (list Z) :=
  if (0 <=? item) && (item <? 256)
  then ret (ram ++ [item])
  else raise ValueError.

Definition read_ram : M (list Z) :=
  transaction
    (_write_byte RAM_BURST_READ ;;
     for_ (range RAM_SIZE)
       (fun _ ram => b <- _read_byte ;; bytearray_append ram b)
       []).

Definition write_ram (ram : list Z) : M unit :=
  transaction
    (_write_byte RAW_BURST_WRITE ;;
     for_ (range (Z.min (len ram) RAM_SIZE))
       (fun i _ => b <- ord (slice ram i (i + 1)) ;; _write_byte b)
       tt).

(** The transaction of [read_datetime], which fills [regs]. *)
Definition read_datetime_regs : M (list Z) :=
  transaction
    (_write_byte REG_BURST_READ ;;
     for_ (range REG_SIZE)
       (fun _ regs => b <- _read_byte ;; ret (regs ++ [b]))
       []).

Definition read_datetime : M datetime :=
  regs <- read_datetime_regs ;;
  lift (datetime_of_regs regs).

Definition write_datetime (dt : datetime) : M unit :=
  regs <- lift (regs_of_datetime dt) ;;
  transaction
    (_write_byte REG_BURST_WRITE ;;
     for_ regs (fun byte _ => _write_byte byte) tt).

End Driver.

(** ** Observations on the call history *)

(** The calls a computation appends to the history it starts from. *)
Definition calls_of {A} (m : M A) (h : list call) : list call :=
  skipn (List.length h) (snd (m h)).

Section Observations.

Variable self : DS1302.

Definition start_calls : list call :=
  [output (_clk_pin self) LOW; output (_rst_pin self) HIGH].

Definition end_calls : list call :=
  [setup [_io_pin self] IN None;
   output (_clk_pin self) LOW;
   output (_rst_pin self) LOW].

(** One transaction: chip select raised, the exchange, chip select
    dropped. *)
Definition framed (body : list call) : list call :=
  start_calls ++ body ++ end_calls.

(** The low bit first, then the low bit of what is left. *)
Fixpoint bits_lsb_first (n : nat) (byte : Z) : list Z :=
  match n with
  | O => []
  | S n' => Z.land byte 1 :: bits_lsb_first n' (Z.shiftr byte 1)
  end.

Definition bit_cell (b : Z) : list call :=
  [output (_clk_pin self) LOW; sleep CLK_DELAY;
   output (_io_pin self) b;
   output (_clk_pin self) HIGH; sleep CLK_DELAY].

Definition write_byte_calls (byte : Z) : list call :=
  setup [_io_pin self] OUT None :: flat_map bit_cell (bits_lsb_first 8 byte).

Definition sample_cell : list call :=
  [output (_clk_pin self) HIGH; sleep CLK_DELAY;
   output (_clk_pin self) LOW; sleep CLK_DELAY;
   input (_io_pin self)].

Definition read_byte_calls : list call :=
  setup [_io_pin self] IN None :: List.concat (repeat sample_cell 8).

Definition write_bytes_calls (bytes : list Z) : list call :=
  flat_map write_byte_calls bytes.

Definition read_bytes_calls (n : nat) : list call :=
  List.concat (repeat read_byte_calls n).

(** The levels driven on the data pin, in order. *)
Definition io_writes (t : list call) : list Z :=
  flat_map
    (fun c =>
       match c with
       | output p v => if p =? _io_pin self then [v] else []
       | _ => []
       end)
    t.

(** How many times the data pin was sampled. *)
Definition reads (t : list call) : nat :=
  List.length
    (filter (fun c => match c with input _ => true | _ => false end) t).

(** A loopback harness: the n-th sample of the data pin returns the n-th
    level that was driven on it. *)
Definition loopback (h : list call) : Z :=
  nth (reads h) (io_writes h) 0.

End Observations.

(** The levels the chip returned to the [input] calls among [t], when [t] is
    issued after history [h]. *)
Fixpoint samples (chip : list call -> Z) (h t : list call) : list Z :=
  match t with
  | [] => []
  | c :: t' =>
      match c with
      | input _ => chip h :: samples chip (h ++ [c]) t'
      | _ => samples chip (h ++ [c]) t'
      end
  end.

(** The number whose binary digits are [bits], lowest first. *)
Fixpoint from_bits_lsb_first (bits : list Z) : Z :=
  match bits with
  | [] => 0
  | b :: bs => b + 2 * from_bits_lsb_first bs
  end.

(** A data line that only ever reads as 0 or 1. *)
Definition bit_chip (chip : list call -> Z) : Prop :=
  forall h, chip h = 0 \/ chip h = 1.

(** One iteration of the sampling loop of [_read_byte]. *)
Definition read_body (chip : list call -> Z) (self : DS1302) (i byte : Z)
    : M Z :=
  emit (output (_clk_pin self) HIGH) ;;
  _sleep ;;
  emit (output (_clk_pin self) LOW) ;;
  _sleep ;;
  bit <- gpio_input chip (_io_pin self) ;;
  ret (Z.lor byte (2 ^ i * bit)).

(** The pins [__init__] uses when the caller names none. *)
Definition default_pins : DS1302 :=
  {| _io_pin := 17; _clk_pin := 4; _rst_pin := 27 |}.

(** A chip that shifts out the given bytes, lowest bit first, one bit per
    sample. *)
Definition shift_out (bytes : list Z) (h : list call) : Z :=
  nth (reads h) (flat_map (bits_lsb_first 8) bytes) 0.

(** *** The state of the three pins *)

(** What the history says about the lines the driver controls: the level
    last driven on clock and reset ([None] while a line is not driven at a
    known level) and the direction of the data pin. *)
Record pins := {
  clk_level : option Z;
  rst_level : option Z;
  io_mode : option direction
}.

(** The pins as [__init__] and every transaction leave them. *)
Definition idle_pins : pins :=
  {| clk_level := Some LOW; rst_level := Some LOW; io_mode := Some IN |}.

Definition mem (pin : Z) (ps : list Z) : bool := existsb (Z.eqb pin) ps.

Definition level_after_setup (pin : Z) (ps : list Z) (d : direction)
    (initial old : option Z) : option Z :=
  if mem pin ps
  then match d with OUT => initial | IN => None end
  else old.

Definition same_level (a b : option Z) : bool :=
  match a, b with
  | Some x, Some y => x =? y
  | None, None => true
  | _, _ => false
  end.

Section PinState.

Variable self : DS1302.

(** The effect of one call on the pins. *)
Definition drive (p : pins) (c : call) : pins :=
  match c with
  | output pin v =>
      {| clk_level := if pin =? _clk_pin self then Some v else clk_level p;
         rst_level := if pin =? _rst_pin self then Some v else rst_level p;
         io_mode := io_mode p |}
  | setup ps d initial =>
      {| clk_level :=
           level_after_setup (_clk_pin self) ps d initial (clk_level p);
         rst_level :=
           level_after_setup (_rst_pin self) ps d initial (rst_level p);
         io_mode := if mem (_io_pin self) ps then Some d else io_mode p |}
  | cleanup ps =>
      {| clk_level := if mem (_clk_pin self) ps then None else clk_level p;
         rst_level := if mem (_rst_pin self) ps then None else rst_level p;
         io_mode := if mem (_io_pin self) ps then None else io_mode p |}
  | _ => p
  end.

Definition replay (p : pins) (t : list call) : pins := fold_left drive t p.

(** Every call of [t] paired with the pin state it is issued in. *)
Fixpoint steps (p : pins) (t : list call) : list (pins * call) :=
  match t with
  | [] => []
  | c :: t' => (p, c) :: steps (drive p c) t'
  end.

(** A clock edge: a call that changes the level of the clock line. *)
Definition clock_edge (s : pins * call) : bool :=
  negb (same_level (clk_level (fst s)) (clk_level (drive (fst s) (snd s)))).

Definition rst_high (p : pins) : Prop := rst_level p = Some HIGH.

(** The pin state [p] with the data pin in mode [m]. *)
Definition with_io_mode (p : pins) (m : option direction) : pins :=
  {| clk_level := clk_level p; rst_level := rst_level p; io_mode := m |}.

(** Transaction framing of a call sequence [t] issued from pin state [p0]:
    [t] splits into a lead-in without clock edge in which reset is driven
    high, a middle part that holds every clock edge and throughout which
    reset is high (before and after each of its calls), and a tail without
    clock edge in which reset is driven low; whenever reset is driven low
    the data pin is in input mode, and it is so whatever mode the pin was
    in before [t]: the switch to input is made by a call of [t] that comes
    before. *)
Definition framing (p0 : pins) (t : list call) : Prop :=
  exists pre mid post,
    t = pre ++ mid ++ post
    /\ In (output (_rst_pin self) HIGH) pre
    /\ Forall (fun s => clock_edge s = false) (steps p0 pre)
    /\ Exists (fun s => clock_edge s = true) (steps (replay p0 pre) mid)
    /\ Forall (fun s => rst_high (fst s) /\ rst_high (drive (fst s) (snd s)))
         (steps (replay p0 pre) mid)
    /\ Forall (fun s => clock_edge s = false)
         (steps (replay p0 (pre ++ mid)) post)
    /\ Forall (fun s => snd s = output (_rst_pin self) LOW ->
                        io_mode (fst s) = Some IN)
         (steps p0 t)
    /\ In (output (_rst_pin self) LOW) post
    /\ (forall m,
          Forall (fun s => snd s = output (_rst_pin self) LOW ->
                           io_mode (fst s) = Some IN)
            (steps (with_io_mode p0 m) t)).

(** The calls of an exchange: they touch the clock and the data pin only. *)
Definition exchange_call (c : call) : Prop :=
  match c with
  | output pin _ => pin = _clk_pin self \/ pin = _io_pin self
  | setup ps _ _ => ps = [_io_pin self]
  | input _ => True
  | sleep _ => True
  | _ => False
  end.

End PinState.

(** *** What the pins see during an exchange *)

Section PinDiscipline.

Variable self : DS1302.

(** The data pin is driven only while it is an output and sampled only
    while it is an input, in both cases with the clock low. *)
Definition data_pin_discipline (s : pins * call) : Prop :=
  match snd s with
  | output pin _ =>
      pin = _io_pin self ->
      io_mode (fst s) = Some OUT /\ clk_level (fst s) = Some LOW
  | input pin =>
      pin = _io_pin self
      /\ io_mode (fst s) = Some IN /\ clk_level (fst s) = Some LOW
  | _ => True
  end.

(** The discipline holds for [t] from whatever state the pins are in. *)
Definition disciplined (t : list call) : Prop :=
  forall p, Forall data_pin_discipline (steps self p t).

(** A clock edge that ends high. *)
Definition rising_edge (s : pins * call) : bool :=
  clock_edge self s
  && same_level (clk_level (drive self (fst s) (snd s))) (Some HIGH).

Definition rising_edges (p : pins) (t : list call) : nat :=
  List.length (filter rising_edge (steps self p t)).

(** The levels driven on the clock pin, in order. *)
Definition clk_outputs (t : list call) : list Z :=
  flat_map
    (fun c =>
       match c with
       | output p v => if p =? _clk_pin self then [v] else []
       | _ => []
       end)
    t.

(** How often a line that is at level [l] goes high when the levels [vs]
    are driven on it one after the other. *)
Fixpoint rises (l : option Z) (vs : list Z) : nat :=
  match vs with
  | [] => 0
  | v :: vs' =>
      ((if negb (same_level l (Some v)) && same_level (Some v) (Some HIGH)
        then 1 else 0)
       + rises (Some v) vs')%nat
  end.

(** The level of a line that was at [l] after [vs] have been driven. *)
Definition last_level (l : option Z) (vs : list Z) : option Z :=
  fold_left (fun _ v => Some v) vs l.

(** Calls that can move the clock only by driving it. *)
Definition clock_by_output_only (c : call) : Prop :=
  match c with
  | setup ps _ _ => mem (_clk_pin self) ps = false
  | cleanup ps => mem (_clk_pin self) ps = false
  | _ => True
  end.

(** A monitor for the settle delay: [rested] tells that [CLK_DELAY] has
    been slept since the last clock edge; an edge met while not rested
    stops the monitor with [None]. *)
Fixpoint pace (p : pins) (rested : bool) (t : list call) : option bool :=
  match t with
  | [] => Some rested
  | c :: t' =>
      if clock_edge self (p, c)
      then if rested then pace (drive self p c) false t' else None
      else
        pace (drive self p c)
          (rested || match c with sleep us => us =? CLK_DELAY | _ => false end)
          t'
  end.

(** Between any two clock edges of [t] the driver sleeps [CLK_DELAY]. *)
Definition paced (p0 : pins) (t : list call) : Prop :=
  forall before c1 between c2 after,
    t = before ++ c1 :: between ++ c2 :: after ->
    clock_edge self (replay self p0 before, c1) = true ->
    clock_edge self (replay self p0 (before ++ c1 :: between), c2) = true ->
    In (sleep CLK_DELAY) between.

End PinDiscipline.

(** Binary-coded decimal: tens digit in the high nibble, units digit in the
    low nibble. *)
Definition bcd (v : Z) : Z := 16 * (v / 10) + v mod 10.

(** The two nibbles [strftime] and [int(_, 16)] produce for a field: its
    last two decimal digits. *)
Definition nibbles (v : Z) : Z := 16 * (v / 10 mod 10) + v mod 10.

(** The wire order of the calendar fields. *)
Definition wire_fields (dt : datetime) : list Z :=
  [second dt; minute dt; hour dt; day dt; month dt; isoweekday dt;
   year dt mod 100].

(** *** Reading a frame token by token *)

(** Every class of the alternative refuses a blank. *)
Definition rejects_space (cs : list cclass) : bool :=
  forallb (fun p : cclass => negb (p " "%char)) cs.

(** An alternative matches the whole of [t]. *)
Definition full_match (cs : list cclass) (t : string) : bool :=
  match match_classes cs t with
  | Some (_, EmptyString) => true
  | _ => false
  end.

(** Some alternative of the group matches the whole of [t]. *)
Definition accepts (alts : list (list cclass)) (t : string) : bool :=
  existsb (fun cs => full_match cs t) alts.

(** No whitespace in [t]. *)
Fixpoint visible (t : string) : bool :=
  match t with
  | EmptyString => true
  | String c t' => negb (is_space c) && visible t'
  end.

(** A non-empty run of visible characters. *)
Definition is_word (t : string) : bool :=
  match t with
  | EmptyString => false
  | _ => visible t
  end.

(** What a directive's group reads from the text of register byte [b]. *)
Definition token_value (alts : list (list cclass)) (b : Z) : option Z :=
  if accepts alts (format_x b) then
    match int10 (format_x b) with
    | Ok v => Some v
    | Raise _ => None
    end
  else None.

(** [re.match] keeps the first way the pattern matches. *)
Definition first_match (r : list re) (s : string) (found : groupdict)
    : option (groupdict * string) :=
  hd_error (re_match r s found).

Definition is_byte (b : Z) : Prop := 0 <= b <= 255.

(** Both nibbles of [b] are decimal digits. *)
Definition bcd_digits_ok (b : Z) : bool := (b / 16 <=? 9) && (b mod 16 <=? 9).

Definition bcd_decode (b : Z) : Z := 10 * (b / 16) + b mod 16.

(** A register byte is a BCD number within [lo..hi]. *)
Definition field_ok (lo hi b : Z) : bool :=
  bcd_digits_ok b && (lo <=? bcd_decode b) && (bcd_decode b <=? hi).

(** Every register of the frame is BCD and within the range of its
    calendar field. *)
Definition frame_ok (regs : list Z) : bool :=
  match regs with
  | [s; mi; h; d; mo; u; y] =>
      field_ok 0 59 s && field_ok 0 59 mi && field_ok 0 23 h
      && field_ok 1 31 d && field_ok 1 12 mo && field_ok 1 7 u
      && field_ok 0 99 y
  | _ => false
  end.

(** The century [%y] picks for a two-digit year. *)
Definition pivot (yy : Z) : Z := if yy <=? 68 then yy + 2000 else yy + 1900.

(** *** Sample values *)

(** Monday 2024-01-15 10:30:45. *)
Definition monday_2024 : datetime :=
  {| year := 2024; month := 1; day := 15;
     hour := 10; minute := 30; second := 45;
     microsecond := 0; tzinfo := None |}.

Definition monday_2024_frame : list Z :=
  [0x45; 0x30; 0x10; 0x15; 0x01; 0x01; 0x24].

(** Saturday 2005-01-15 10:30:45. *)
Definition saturday_2005 : datetime :=
  {| year := 2005; month := 1; day := 15;
     hour := 10; minute := 30; second := 45;
     microsecond := 0; tzinfo := None |}.

Definition saturday_2005_frame : list Z :=
  [0x45; 0x30; 0x10; 0x15; 0x01; 0x06; 0x05].

(** Midnight on the first of January, with the given year byte. *)
Definition year_frame (y : Z) : list Z := [0x00; 0x00; 0x00; 0x01; 0x01; 0x01; y].

(** The year [read_datetime] returns for a frame, if it returns. *)
Definition decoded_year (regs : list Z) : option Z :=
  match datetime_of_regs regs with
  | Ok dt => Some (year dt)
  | Raise _ => None
  end.

(** [runs m h a t]: started from history [h], [m] returns [a] and appends
    exactly the calls [t]. *)
Definition runs {A} (m : M A) (h : list call) (a : A) (t : list call) : Prop :=
  m h = (Ok a, h ++ t).

(* ================================================================== *)
(** * Properties *)

(** ** Running computations *)

Lemma runs_ret {A} (a : A) h : runs (ret a) h a [].
Proof. unfold runs, ret. now rewrite app_nil_r. Qed.

Lemma runs_emit c h : runs (emit c) h tt [c].
Proof. reflexivity. Qed.

Lemma runs_bind {A B} (m : M A) (k : A -> M B) h a t b t' :
  runs m h a t -> runs (k a) (h ++ t) b t' -> runs (bind m k) h b (t ++ t').
Proof.
  unfold runs, bind. intros -> ->. now rewrite app_assoc.
Qed.

Lemma runs_lift {A} (a : A) h : runs (lift (Ok a)) h a [].
Proof. unfold runs, lift. now rewrite app_nil_r. Qed.

Lemma bind_lift_ok {A B} (a : A) (k : A -> M B) h :
  bind (lift (Ok a)) k h = k a h.
Proof. reflexivity. Qed.

Lemma runs_calls_of {A} (m : M A) h a t : runs m h a t -> calls_of m h = t.
Proof.
  unfold runs, calls_of. intros ->. cbn.
  rewrite skipn_app, skipn_all, Nat.sub_diag. reflexivity.
Qed.

Lemma runs_fst {A} (m : M A) h a t : runs m h a t -> fst (m h) = Ok a.
Proof. unfold runs. now intros ->. Qed.

Lemma runs_snd {A} (m : M A) h a t : runs m h a t -> snd (m h) = h ++ t.
Proof. unfold runs. now intros ->. Qed.

Section Transport.

Variable chip : list call -> Z.
Variable self : DS1302.

Lemma runs_transaction {A} (body : M A) h a t :
  runs body (h ++ start_calls self) a t ->
  runs (transaction self body) h a (framed self t).
Proof.
  unfold runs, transaction, GPIOTimingContentManager, framed.
  intros Hb. cbn. rewrite <- app_assoc. cbn [app].
  change (h ++ [output (_clk_pin self) LOW; output (_rst_pin self) HIGH])
    with (h ++ start_calls self).
  rewrite Hb. cbn. f_equal.
  rewrite <- !app_assoc. reflexivity.
Qed.

Lemma write_loop {A} (xs : list A) : forall byte h,
  runs
    (for_ xs
       (fun _ byte =>
          emit (output (_clk_pin self) LOW) ;;
          _sleep ;;
          emit (output (_io_pin self) (Z.land byte 0x01)) ;;
          let byte := Z.shiftr byte 1 in
          emit (output (_clk_pin self) HIGH) ;;
          _sleep ;;
          ret byte)
       byte)
    h (Z.shiftr byte (len xs))
    (flat_map (bit_cell self) (bits_lsb_first (List.length xs) byte)).
Proof.
  induction xs as [|x xs IH]; intros byte h.
  - apply runs_ret.
  - cbn [for_ List.length bits_lsb_first flat_map].
    eapply runs_bind with (a := Z.shiftr byte 1).
    + unfold runs, bind, _sleep, emit, ret. cbn.
      rewrite <- !app_assoc. reflexivity.
    + replace (Z.shiftr byte (len (x :: xs)))
        with (Z.shiftr (Z.shiftr byte 1) (len xs)).
      * apply IH.
      * unfold len. rewrite Z.shiftr_shiftr by lia.
        f_equal. cbn [List.length]. lia.
Qed.

Lemma runs_write_byte byte h :
  runs (_write_byte self byte) h tt (write_byte_calls self byte).
Proof.
  unfold _write_byte, write_byte_calls.
  change (setup [_io_pin self] OUT None
            :: flat_map (bit_cell self) (bits_lsb_first 8 byte))
    with ([setup [_io_pin self] OUT None]
            ++ flat_map (bit_cell self) (bits_lsb_first 8 byte) ++ []).
  eapply runs_bind; [apply runs_emit|].
  eapply runs_bind; [apply (write_loop (range 8))|].
  apply runs_ret.
Qed.

Lemma lor_bit acc i b :
  0 <= i -> 0 <= acc < 2 ^ i -> b = 0 \/ b = 1 ->
  Z.lor acc (2 ^ i * b) = acc + 2 ^ i * b.
Proof.
  intros Hi Hacc [-> | ->].
  - now rewrite Z.mul_0_r, Z.lor_0_r, Z.add_0_r.
  - rewrite Z.mul_1_r.
    assert (E : Z.land acc (2 ^ i) = 0).
    { apply Z.bits_inj'. intros n Hn.
      rewrite Z.land_spec, Z.bits_0, Z.pow2_bits_eqb by lia.
      destruct (Z.eqb_spec i n) as [<- |]; [|apply andb_false_r].
      rewrite andb_true_r.
      destruct (Z.eq_dec acc 0) as [-> |]; [apply Z.bits_0|].
      apply Z.bits_above_log2; [lia|].
      apply Z.log2_lt_pow2; lia. }
    rewrite <- Z.lxor_lor by exact E.
    symmetry. now apply Z.add_nocarry_lxor.
Qed.

Lemma samples_app h t1 t2 :
  samples chip h (t1 ++ t2)
  = samples chip h t1 ++ samples chip (h ++ t1) t2.
Proof.
  revert h. induction t1 as [|c t1 IH]; intros h; cbn [app samples].
  - now rewrite app_nil_r.
  - replace (h ++ c :: t1) with ((h ++ [c]) ++ t1)
      by now rewrite <- app_assoc.
    destruct c; rewrite IH; reflexivity.
Qed.

Lemma from_bits_range bits :
  Forall (fun b => b = 0 \/ b = 1) bits ->
  0 <= from_bits_lsb_first bits < 2 ^ Z.of_nat (List.length bits).
Proof.
  induction 1 as [|b bs Hb _ IH]; cbn [from_bits_lsb_first List.length].
  - cbn. lia.
  - rewrite Nat2Z.inj_succ, Z.pow_succ_r by lia.
    destruct Hb; subst; lia.
Qed.

Lemma samples_bits h t :
  bit_chip chip -> Forall (fun b => b = 0 \/ b = 1) (samples chip h t).
Proof.
  intros Hc. revert h.
  induction t as [|c t IH]; intros h; cbn [samples]; [constructor|].
  destruct c; auto.
Qed.

Lemma read_body_run i byte h :
  runs (read_body chip self i byte) h
    (Z.lor byte (2 ^ i * hd 0 (samples chip h (sample_cell self))))
    (sample_cell self).
Proof.
  unfold runs, read_body, bind, emit, _sleep, gpio_input, ret.
  cbn. rewrite <- !app_assoc. reflexivity.
Qed.

(** The sampling loop emits one cell per iteration, whatever is sampled. *)
Lemma read_loop_calls (xs : list Z) : forall byte h,
  exists v,
    runs (for_ xs (read_body chip self) byte) h v
      (List.concat (repeat (sample_cell self) (List.length xs))).
Proof.
  induction xs as [|x xs IH]; intros byte h.
  - exists byte. apply runs_ret.
  - cbn [for_ List.length repeat List.concat].
    destruct (IH (Z.lor byte (2 ^ x * hd 0 (samples chip h (sample_cell self))))
                 (h ++ sample_cell self)) as [v Hv].
    exists v. eapply runs_bind; [apply read_body_run | exact Hv].
Qed.

(** When the samples are bits, the loop places the n-th of them at bit
    [i + n]. *)
Lemma read_loop_value (n : nat) : forall i byte h,
  Forall (fun b => b = 0 \/ b = 1)
    (samples chip h (List.concat (repeat (sample_cell self) n))) ->
  0 <= byte < 2 ^ Z.of_nat i ->
  runs (for_ (map Z.of_nat (seq i n)) (read_body chip self) byte) h
    (byte + 2 ^ Z.of_nat i
            * from_bits_lsb_first
                (samples chip h (List.concat (repeat (sample_cell self) n))))
    (List.concat (repeat (sample_cell self) n)).
Proof.
  induction n as [|n IH]; intros i byte h Hc Hb.
  - cbn. rewrite Z.mul_0_r, Z.add_0_r. apply runs_ret.
  - cbn [seq map for_ repeat List.concat] in *.
    rewrite samples_app in *.
    set (b := hd 0 (samples chip h (sample_cell self))) in *.
    assert (Hs : samples chip h (sample_cell self) = [b]) by reflexivity.
    rewrite Hs in *. cbn [app from_bits_lsb_first] in *.
    inversion Hc as [|? ? Hbit Hrest]; subst.
    eapply runs_bind; [apply read_body_run|]. fold b.
    rewrite lor_bit by (auto; lia).
    replace (byte + 2 ^ Z.of_nat i *
               (b + 2 * from_bits_lsb_first
                          (samples chip (h ++ sample_cell self)
                             (List.concat (repeat (sample_cell self) n)))))
      with ((byte + 2 ^ Z.of_nat i * b) + 2 ^ Z.of_nat (S i) *
               from_bits_lsb_first
                 (samples chip (h ++ sample_cell self)
                    (List.concat (repeat (sample_cell self) n))))
      by (rewrite Nat2Z.inj_succ, Z.pow_succ_r by lia; ring).
    apply IH; [assumption|].
    rewrite Nat2Z.inj_succ, Z.pow_succ_r by lia.
    destruct Hbit; subst b; lia.
Qed.

Lemma runs_read_byte h :
  exists v, runs (_read_byte chip self) h v (read_byte_calls self).
Proof.
  destruct (read_loop_calls (range 8) 0 (h ++ [setup [_io_pin self] IN None]))
    as [v Hv].
  exists v. unfold _read_byte, read_byte_calls.
  change (setup [_io_pin self] IN None
            :: List.concat (repeat (sample_cell self) 8))
    with ([setup [_io_pin self] IN None]
            ++ List.concat (repeat (sample_cell self) 8)).
  eapply runs_bind; [apply runs_emit | exact Hv].
Qed.

Lemma read_byte_value_bits h :
  Forall (fun b => b = 0 \/ b = 1) (samples chip h (read_byte_calls self)) ->
  runs (_read_byte chip self) h
    (from_bits_lsb_first (samples chip h (read_byte_calls self)))
    (read_byte_calls self).
Proof.
  intros Hc. unfold _read_byte, read_byte_calls in *.
  change (setup [_io_pin self] IN None
            :: List.concat (repeat (sample_cell self) 8))
    with ([setup [_io_pin self] IN None]
            ++ List.concat (repeat (sample_cell self) 8)) in *.
  eapply runs_bind; [apply runs_emit|].
  rewrite samples_app in *. cbn [samples app] in *.
  pose proof (read_loop_value 8 0 0 (h ++ [setup [_io_pin self] IN None]) Hc)
    as H.
  cbn [Z.of_nat] in H. rewrite Z.pow_0_r, Z.add_0_l, Z.mul_1_l in H.
  apply H. lia.
Qed.

Lemma read_byte_value h :
  bit_chip chip ->
  runs (_read_byte chip self) h
    (from_bits_lsb_first (samples chip h (read_byte_calls self)))
    (read_byte_calls self).
Proof.
  intros Hc. apply read_byte_value_bits. now apply samples_bits.
Qed.

(** *** Bursts *)

Lemma write_bytes_run (bytes : list Z) : forall h,
  runs (for_ bytes (fun byte _ => _write_byte self byte) tt) h tt
    (write_bytes_calls self bytes).
Proof.
  induction bytes as [|b bytes IH]; intros h.
  - apply runs_ret.
  - cbn [for_ write_bytes_calls flat_map].
    eapply runs_bind; [apply runs_write_byte | apply IH].
Qed.

Lemma slice_one (ram : list Z) (i : nat) :
  (i < List.length ram)%nat ->
  slice ram (Z.of_nat i) (Z.of_nat i + 1) = [nth i ram 0].
Proof.
  intros Hi. unfold slice.
  replace (Z.to_nat (Z.of_nat i + 1 - Z.of_nat i)) with 1%nat by lia.
  rewrite Nat2Z.id.
  revert i Hi. induction ram as [|x ram IH]; intros i Hi; cbn in Hi; [lia|].
  destruct i as [|i]; [reflexivity|].
  cbn [skipn nth]. apply IH. lia.
Qed.

Lemma firstn_skipn_step (ram : list Z) (i n : nat) :
  (i < List.length ram)%nat ->
  firstn (S n) (skipn i ram) = nth i ram 0 :: firstn n (skipn (S i) ram).
Proof.
  revert i. induction ram as [|x ram IH]; intros i Hi; cbn in Hi; [lia|].
  destruct i as [|i]; [reflexivity|].
  cbn [skipn nth]. rewrite IH by lia. reflexivity.
Qed.

Lemma write_ram_loop (ram : list Z) (n : nat) : forall i h,
  (i + n <= List.length ram)%nat ->
  runs
    (for_ (map Z.of_nat (seq i n))
       (fun i _ => b <- ord (slice ram i (i + 1)) ;; _write_byte self b)
       tt)
    h tt (write_bytes_calls self (firstn n (skipn i ram))).
Proof.
  induction n as [|n IH]; intros i h Hi.
  - apply runs_ret.
  - cbn [seq map for_]. rewrite firstn_skipn_step by lia.
    cbn [write_bytes_calls flat_map].
    eapply runs_bind.
    + rewrite slice_one by lia. cbn [ord].
      change (write_byte_calls self (nth i ram 0))
        with ([] ++ write_byte_calls self (nth i ram 0)).
      eapply runs_bind; [apply runs_ret|].
      rewrite app_nil_r. apply runs_write_byte.
    + apply IH. lia.
Qed.

Lemma read_bytes_run {A} (xs : list A) : forall acc h,
  exists bytes,
    runs
      (for_ xs (fun _ regs => b <- _read_byte chip self ;; ret (regs ++ [b]))
         acc)
      h (acc ++ bytes) (read_bytes_calls self (List.length xs))
    /\ List.length bytes = List.length xs.
Proof.
  induction xs as [|x xs IH]; intros acc h.
  - exists []. rewrite app_nil_r. split; [apply runs_ret | reflexivity].
  - destruct (runs_read_byte h) as [v Hv].
    destruct (IH (acc ++ [v]) (h ++ read_byte_calls self)) as [bytes [Hr Hl]].
    exists (v :: bytes). split; [|cbn; now rewrite Hl].
    cbn [for_ List.length read_bytes_calls repeat List.concat].
    eapply runs_bind.
    + rewrite <- (app_nil_r (read_byte_calls self)).
      eapply runs_bind; [exact Hv | apply runs_ret].
    + rewrite <- app_assoc in Hr. exact Hr.
Qed.

(** *** The operations *)

Lemma write_ram_run (ram : list Z) h :
  runs (write_ram self ram) h tt
    (framed self
       (write_byte_calls self RAW_BURST_WRITE
        ++ write_bytes_calls self (firstn 31 ram))).
Proof.
  unfold write_ram. apply runs_transaction.
  eapply runs_bind; [apply runs_write_byte|].
  unfold range. rewrite Z2Nat.inj_min. unfold len. rewrite Nat2Z.id.
  change (Z.to_nat RAM_SIZE) with 31%nat.
  replace (firstn 31 ram)
    with (firstn (Nat.min (List.length ram) 31) (skipn 0 ram)).
  - apply write_ram_loop. cbn. lia.
  - cbn [skipn]. destruct (Nat.le_ge_cases (List.length ram) 31) as [H|H].
    + rewrite Nat.min_l by exact H.
      rewrite !firstn_all2 by lia. reflexivity.
    + rewrite Nat.min_r by exact H. reflexivity.
Qed.

Lemma read_datetime_regs_run h :
  exists regs,
    runs (read_datetime_regs chip self) h regs
      (framed self
         (write_byte_calls self REG_BURST_READ ++ read_bytes_calls self 7))
    /\ List.length regs = 7%nat.
Proof.
  destruct (read_bytes_run (range REG_SIZE) []
              ((h ++ start_calls self)
                 ++ write_byte_calls self REG_BURST_READ))
    as [regs [Hr Hl]].
  exists regs. split; [|exact Hl].
  unfold read_datetime_regs. apply runs_transaction.
  eapply runs_bind; [apply runs_write_byte | exact Hr].
Qed.

(** [read_datetime] issues its calls whether or not decoding succeeds. *)
Lemma read_datetime_calls h :
  snd (read_datetime chip self h)
  = h ++ framed self
           (write_byte_calls self REG_BURST_READ ++ read_bytes_calls self 7).
Proof.
  destruct (read_datetime_regs_run h) as [regs [Hr _]].
  unfold read_datetime, bind. rewrite Hr. reflexivity.
Qed.

Lemma init_run mode h :
  runs (__init__ self mode) h tt
    ([setmode mode; setup [_clk_pin self; _rst_pin self] OUT (Some LOW)]
     ++ framed self
          (write_byte_calls self WP_REG_WRITE ++ write_byte_calls self 0)
     ++ framed self
          (write_byte_calls self CHR_REG_WRITE ++ write_byte_calls self 0)).
Proof.
  unfold __init__.
  change [setmode mode; setup [_clk_pin self; _rst_pin self] OUT (Some LOW)]
    with ([setmode mode]
            ++ [setup [_clk_pin self; _rst_pin self] OUT (Some LOW)]).
  rewrite <- app_assoc.
  eapply runs_bind; [apply runs_emit|].
  eapply runs_bind; [apply runs_emit|].
  eapply runs_bind.
  - apply runs_transaction.
    eapply runs_bind; apply runs_write_byte.
  - apply runs_transaction.
    eapply runs_bind; apply runs_write_byte.
Qed.

End Transport.

(** ** [read_ram] and the range check of [bytearray.append] *)

Lemma samples_length chip t : forall h,
  List.length (samples chip h t) = reads t.
Proof.
  induction t as [|c t IH]; intros h; [reflexivity|].
  cbn [samples]. unfold reads in *. cbn [filter].
  destruct c; cbn [List.length]; rewrite IH; reflexivity.
Qed.

Lemma read_byte_in_range (chip : list call -> Z) (self : DS1302)
    (h : list call) :
  bit_chip chip ->
  exists v,
    _read_byte chip self h = (Ok v, h ++ read_byte_calls self)
    /\ is_byte v.
Proof.
  intros Hc.
  exists (from_bits_lsb_first (samples chip h (read_byte_calls self))).
  split; [apply (read_byte_value chip self h Hc)|].
  pose proof (from_bits_range _ (samples_bits chip h (read_byte_calls self) Hc))
    as R.
  rewrite samples_length in R.
  change (2 ^ Z.of_nat (reads (read_byte_calls self))) with 256 in R.
  unfold is_byte. lia.
Qed.

Lemma read_bytes_are_bytes {A} chip self (xs : list A) :
  bit_chip chip ->
  forall acc h,
    exists bytes,
      runs
        (for_ xs (fun _ regs => b <- _read_byte chip self ;; ret (regs ++ [b]))
           acc)
        h (acc ++ bytes) (read_bytes_calls self (List.length xs))
      /\ List.length bytes = List.length xs
      /\ Forall is_byte bytes.
Proof.
  intros Hc. induction xs as [|x xs IH]; intros acc h.
  - exists []. rewrite app_nil_r.
    split; [apply runs_ret | split; [reflexivity | constructor]].
  - destruct (read_byte_in_range chip self h Hc) as [v [Hv Bv]].
    destruct (IH (acc ++ [v]) (h ++ read_byte_calls self))
      as [bytes [Hr [Hl Hb]]].
    exists (v :: bytes).
    split; [|split; [cbn; now rewrite Hl | now constructor]].
    cbn [for_ List.length read_bytes_calls repeat List.concat].
    eapply runs_bind.
    + rewrite <- (app_nil_r (read_byte_calls self)).
      eapply runs_bind; [exact Hv | apply runs_ret].
    + rewrite <- app_assoc in Hr. exact Hr.
Qed.

Section RamRead.

Variable chip : list call -> Z.
Variable self : DS1302.

Lemma bytearray_append_byte ram b h :
  is_byte b -> bytearray_append ram b h = (Ok (ram ++ [b]), h).
Proof.
  unfold is_byte, bytearray_append. intros Hb.
  destruct (Z.leb_spec 0 b); [|lia]. destruct (Z.ltb_spec b 256); [|lia].
  reflexivity.
Qed.

Lemma bytearray_append_refuses ram b h :
  ~ is_byte b -> bytearray_append ram b h = (Raise ValueError, h).
Proof.
  unfold is_byte, bytearray_append. intros Hb.
  destruct (Z.leb_spec 0 b); destruct (Z.ltb_spec b 256);
    try reflexivity; lia.
Qed.

(** While every byte read is in 0..255, appending to a [bytearray] is
    appending to a list. *)
Lemma bytearray_loop_in_range {A} (xs : list A) : forall acc h bytes t,
  runs
    (for_ xs (fun _ regs => b <- _read_byte chip self ;; ret (regs ++ [b])) acc)
    h (acc ++ bytes) t ->
  Forall is_byte bytes ->
  runs
    (for_ xs
       (fun _ ram => b <- _read_byte chip self ;; bytearray_append ram b) acc)
    h (acc ++ bytes) t.
Proof.
  induction xs as [|x xs IH]; intros acc h bytes t R F; [exact R|].
  destruct (runs_read_byte chip self h) as [v Hv].
  destruct (read_bytes_run chip self xs (acc ++ [v])
              (h ++ read_byte_calls self)) as [bytes' [R' _]].
  unfold runs in *. cbn [for_] in *. unfold bind in *.
  rewrite Hv in *. unfold ret at 1 in R. rewrite R' in R.
  injection R as E1 E2. rewrite <- app_assoc in E1.
  apply app_inv_head in E1. cbn [app] in E1. subst bytes.
  inversion F as [|? ? Hb F']; subst.
  rewrite bytearray_append_byte by exact Hb.
  rewrite <- E2.
  replace (acc ++ v :: bytes') with ((acc ++ [v]) ++ bytes')
    by (rewrite <- app_assoc; reflexivity).
  apply IH; [exact R' | exact F'].
Qed.

(** A transaction runs [_end_tx] whether its body returns or raises. *)
Lemma transaction_outcome {A} (body : M A) h r t :
  body (h ++ start_calls self) = (r, (h ++ start_calls self) ++ t) ->
  transaction self body h = (r, h ++ framed self t).
Proof.
  unfold transaction, GPIOTimingContentManager, framed.
  intros Hb. cbn. rewrite <- app_assoc. cbn [app].
  change (h ++ [output (_clk_pin self) LOW; output (_rst_pin self) HIGH])
    with (h ++ start_calls self).
  rewrite Hb. cbn. f_equal.
  rewrite <- !app_assoc. reflexivity.
Qed.

(** The loop of [read_ram] reads whole bytes; it goes through the list, or
    stops after the first byte that [bytearray.append] refuses, which takes
    a data line that reads as something else than 0 or 1. *)
Lemma read_ram_loop {A} (xs : list A) : forall acc h,
  exists n r,
    for_ xs
      (fun _ ram => b <- _read_byte chip self ;; bytearray_append ram b) acc h
    = (r, h ++ read_bytes_calls self n)
    /\ (n <= List.length xs)%nat
    /\ match r with
       | Ok ram =>
           n = List.length xs
           /\ exists bytes,
                ram = acc ++ bytes
                /\ List.length bytes = List.length xs
                /\ Forall is_byte bytes
       | Raise e => e = ValueError /\ (1 <= n)%nat /\ ~ bit_chip chip
       end.
Proof.
  induction xs as [|x xs IH]; intros acc h.
  - exists 0%nat, (Ok acc). cbn [for_ read_bytes_calls repeat List.concat].
    unfold ret. rewrite app_nil_r. split; [reflexivity|].
    split; [reflexivity|]. split; [reflexivity|].
    exists []. rewrite app_nil_r. repeat split. constructor.
  - destruct (runs_read_byte chip self h) as [v Hv]. unfold runs in Hv.
    assert (D : is_byte v \/ ~ is_byte v) by (unfold is_byte; lia).
    destruct D as [Hb | Hb].
    + destruct (IH (acc ++ [v]) (h ++ read_byte_calls self))
        as [n [r [E [Hn Hr]]]].
      exists (S n), r. cbn [for_]. unfold bind at 1. unfold bind at 1.
      rewrite Hv, bytearray_append_byte by exact Hb. rewrite E.
      cbn [read_bytes_calls repeat List.concat List.length].
      rewrite <- app_assoc. split; [reflexivity|]. split; [lia|].
      destruct r as [ram|e].
      * destruct Hr as [-> [bytes [-> [Hl F]]]]. split; [reflexivity|].
        exists (v :: bytes). rewrite <- app_assoc. cbn [app List.length].
        repeat split; [now rewrite Hl | now constructor].
      * destruct Hr as [-> [_ Hc]]. repeat split; [lia | exact Hc].
    + exists 1%nat, (Raise ValueError). cbn [for_].
      unfold bind at 1. unfold bind at 1.
      rewrite Hv, bytearray_append_refuses by exact Hb.
      cbn [read_bytes_calls repeat List.concat List.length].
      rewrite app_nil_r. split; [reflexivity|]. split; [lia|].
      repeat split; [lia|]. intros Hc.
      destruct (read_byte_in_range chip self h Hc) as [v' [Hv' Bv']].
      rewrite Hv in Hv'. injection Hv' as ->. contradiction.
Qed.

(** [read_ram] on any data line: one transaction that sends the command
    byte and reads [n] bytes; it returns 31 bytes, all in 0..255, or raises
    [ValueError] after the byte that is out of range. *)
Lemma read_ram_outcome h :
  exists n r,
    read_ram chip self h
    = (r, h ++ framed self
                 (write_byte_calls self RAM_BURST_READ
                  ++ read_bytes_calls self n))
    /\ (1 <= n <= 31)%nat
    /\ match r with
       | Ok ram =>
           n = 31%nat /\ List.length ram = 31%nat /\ Forall is_byte ram
       | Raise e => e = ValueError /\ ~ bit_chip chip
       end.
Proof.
  destruct (read_ram_loop (range RAM_SIZE) []
              ((h ++ start_calls self)
                 ++ write_byte_calls self RAM_BURST_READ))
    as [n [r [E [Hn Hr]]]].
  change (List.length (range RAM_SIZE)) with 31%nat in *.
  exists n, r. split; [|split].
  - unfold read_ram. apply transaction_outcome.
    pose proof (runs_write_byte self RAM_BURST_READ (h ++ start_calls self))
      as W.
    unfold runs in W. unfold bind at 1. rewrite W, E.
    now rewrite <- app_assoc.
  - destruct r as [ram|e].
    + destruct Hr as [-> _]. lia.
    + destruct Hr as [_ [H1 _]]. lia.
  - destruct r as [ram|e].
    + destruct Hr as [-> [bytes [-> [Hl F]]]]. cbn [app].
      repeat split; assumption.
    + destruct Hr as [-> [_ Hc]]. split; [reflexivity | exact Hc].
Qed.

Lemma read_ram_calls h :
  exists n,
    (1 <= n <= 31)%nat
    /\ calls_of (read_ram chip self) h
       = framed self
           (write_byte_calls self RAM_BURST_READ ++ read_bytes_calls self n).
Proof.
  destruct (read_ram_outcome h) as [n [r [E [Hn _]]]].
  exists n. split; [exact Hn|].
  unfold calls_of. rewrite E. cbn [snd].
  rewrite skipn_app, skipn_all, Nat.sub_diag. reflexivity.
Qed.

Lemma read_ram_run h :
  bit_chip chip ->
  exists ram,
    runs (read_ram chip self) h ram
      (framed self
         (write_byte_calls self RAM_BURST_READ ++ read_bytes_calls self 31))
    /\ List.length ram = 31%nat
    /\ Forall is_byte ram.
Proof.
  intros Hc.
  destruct (read_ram_outcome h) as [n [r [E [Hn Hr]]]].
  destruct r as [ram|e].
  - destruct Hr as [-> [Hl F]]. exists ram. split; [exact E|]. split; assumption.
  - destruct Hr as [_ Hr]. contradiction.
Qed.

End RamRead.

(** ** Text *)

Lemma forall_range (P : Z -> bool) (n : Z) :
  forallb P (range n) = true -> forall b, 0 <= b < n -> P b = true.
Proof.
  intros H b Hb. rewrite forallb_forall in H. apply H.
  unfold range. rewrite <- (Z2Nat.id b) by lia.
  apply in_map, in_seq. lia.
Qed.

Module TextFacts.

Import Text.
Local Open Scope string_scope.

(** Whatever the argument, [digit_char] yields a visible character. *)
Lemma digit_char_not_space d : is_space (digit_char d) = false.
Proof.
  unfold digit_char. generalize (Z.to_nat d) as n. intros n.
  do 16 (destruct n as [|n]; [reflexivity|]). destruct n; reflexivity.
Qed.

Lemma hex_value_digit_char d :
  0 <= d < 16 -> hex_value (digit_char d) = Some d.
Proof.
  intros Hd.
  assert (E : (match hex_value (digit_char d) with
               | Some v => (v =? d)%Z
               | None => false
               end) = true).
  { revert d Hd. apply forall_range. vm_compute. reflexivity. }
  destruct (hex_value (digit_char d)); [|discriminate].
  apply Z.eqb_eq in E. now subst.
Qed.

Lemma split_from_nonspace c s w :
  is_space c = false ->
  split_from (String c s) w = split_from s (w ++ String c "").
Proof. intros H. cbn [split_from]. now rewrite H. Qed.

Lemma split_from_space c s w :
  is_space c = true ->
  split_from (String c s) w
  = match w with
    | "" => split_from s ""
    | _ => w :: split_from s ""
    end.
Proof. intros H. cbn [split_from]. now rewrite H. Qed.

Lemma int16_pad2 v :
  int16 ("0x" ++ pad2 v) = Ok (16 * (v / 10 mod 10) + v mod 10).
Proof.
  unfold pad2, int16. cbn [append digits_value].
  pose proof (Z.mod_pos_bound (v / 10) 10 ltac:(lia)).
  pose proof (Z.mod_pos_bound v 10 ltac:(lia)).
  rewrite !hex_value_digit_char by lia.
  f_equal.
Qed.

Lemma int16_digit d :
  0 <= d < 16 -> int16 ("0x" ++ String (digit_char d) "") = Ok d.
Proof.
  intros Hd. unfold int16. cbn [append digits_value].
  rewrite hex_value_digit_char by exact Hd. f_equal.
Qed.

End TextFacts.

(** ** Encoding a calendar value *)

Section Encoding.

Import Text TextFacts.

Lemma strftime_DT_STR_FMT dt :
  strftime dt DT_STR_FMT
  = Ok (pad2 (second dt) ++ " " ++ pad2 (minute dt) ++ " "
        ++ pad2 (hour dt) ++ " " ++ pad2 (day dt) ++ " "
        ++ pad2 (month dt) ++ " "
        ++ String (digit_char (isoweekday dt)) "" ++ " "
        ++ pad2 (year dt mod 100))%string.
Proof. reflexivity. Qed.

Lemma split_fields a b c d e u y :
  split
    (pad2 a ++ " " ++ pad2 b ++ " " ++ pad2 c ++ " " ++ pad2 d ++ " "
     ++ pad2 e ++ " " ++ String (digit_char u) "" ++ " " ++ pad2 y)%string
  = [pad2 a; pad2 b; pad2 c; pad2 d; pad2 e;
     String (digit_char u) ""; pad2 y].
Proof.
  unfold split, pad2. cbn [append].
  repeat (first [ rewrite split_from_nonspace by apply digit_char_not_space
                | rewrite split_from_space by reflexivity ];
          cbn [append]).
  reflexivity.
Qed.

Lemma isoweekday_range dt : 1 <= isoweekday dt <= 7.
Proof.
  unfold isoweekday.
  pose proof (Z.mod_pos_bound (toordinal dt) 7 ltac:(lia)).
  destruct (Z.eqb_spec (toordinal dt mod 7) 0); lia.
Qed.

Lemma regs_of_datetime_nibbles dt :
  regs_of_datetime dt
  = Ok ([nibbles (second dt); nibbles (minute dt); nibbles (hour dt);
         nibbles (day dt); nibbles (month dt); isoweekday dt;
         nibbles (year dt mod 100)] ++ [0; 0]).
Proof.
  unfold regs_of_datetime.
  rewrite strftime_DT_STR_FMT, split_fields.
  cbn [comprehension].
  rewrite !int16_pad2.
  rewrite int16_digit by (pose proof (isoweekday_range dt); lia).
  reflexivity.
Qed.

Lemma nibbles_bcd v : 0 <= v <= 99 -> nibbles v = bcd v.
Proof.
  intros H. unfold nibbles, bcd.
  rewrite (Z.mod_small (v / 10) 10); [reflexivity|].
  split; [apply Z.div_pos; lia | apply Z.div_lt_upper_bound; lia].
Qed.

Lemma valid_ranges dt :
  valid dt = true ->
  0 <= second dt <= 59 /\ 0 <= minute dt <= 59 /\ 0 <= hour dt <= 23
  /\ 1 <= day dt <= 31 /\ 1 <= month dt <= 12 /\ 1 <= year dt <= 9999
  /\ day dt <= _days_in_month (year dt) (month dt).
Proof.
  unfold valid, _check_date_fields, _check_time_fields, MINYEAR, MAXYEAR.
  rewrite !andb_true_iff, !Z.leb_le. intros H.
  assert (Hm : 1 <= month dt <= 12) by lia.
  assert (Hd : _days_in_month (year dt) (month dt) <= 31).
  { unfold _days_in_month.
    destruct ((month dt =? 2) && _is_leap (year dt)); [lia|].
    assert (C : month dt = 1 \/ month dt = 2 \/ month dt = 3
                \/ month dt = 4 \/ month dt = 5 \/ month dt = 6
                \/ month dt = 7 \/ month dt = 8 \/ month dt = 9
                \/ month dt = 10 \/ month dt = 11 \/ month dt = 12) by lia.
    repeat (destruct C as [E | C]; [rewrite E; vm_compute; congruence|]).
    rewrite C. vm_compute. congruence. }
  lia.
Qed.

(** For a [datetime] object the frame is: BCD second, minute, hour, day of
    month, month, weekday, two-digit year, then two zero bytes. *)
Lemma regs_of_datetime_valid dt :
  valid dt = true ->
  regs_of_datetime dt = Ok (map bcd (wire_fields dt) ++ [0; 0]).
Proof.
  intros Hv. pose proof (valid_ranges dt Hv) as R.
  pose proof (isoweekday_range dt) as W.
  pose proof (Z.mod_pos_bound (year dt) 100 ltac:(lia)) as Y.
  rewrite regs_of_datetime_nibbles. unfold wire_fields. cbn [map].
  rewrite !nibbles_bcd by lia.
  replace (bcd (isoweekday dt)) with (isoweekday dt); [reflexivity|].
  unfold bcd. rewrite Z.div_small, Z.mod_small by lia. lia.
Qed.

End Encoding.

(** ** Matching the format's regular expression *)

Module MatchFacts.

Import Text.
Local Open Scope string_scope.

(** After the group has read from [t ++ " " ++ s], [\s+] can only go on
    when the alternative stopped exactly at the end of [t]. *)
Lemma match_classes_token (s : string) (c0 : ascii) (s0 : string) :
  s = String c0 s0 -> is_space c0 = false ->
  forall (cs : list cclass) (t : string),
    visible t = true ->
    rejects_space (match t with "" => cs | _ => tl cs end) = true ->
    match match_classes cs (t ++ String " " s) with
    | Some (m, rest) =>
        if full_match cs t then m = t /\ match_spaces rest = [s]
        else match_spaces rest = []
    | None => full_match cs t = false
    end.
Proof.
  intros -> Hc0.
  induction cs as [|p cs IH]; intros t Hv Hr.
  - cbn [match_classes]. destruct t as [|c t].
    + cbn. rewrite Hc0. cbn. auto.
    + cbn in Hv |- *. apply andb_true_iff in Hv as [Hc _].
      apply negb_true_iff in Hc. now rewrite Hc.
  - destruct t as [|c t].
    + cbn in Hr |- *. apply andb_true_iff in Hr as [Hp _].
      apply negb_true_iff in Hp. now rewrite Hp.
    + cbn [append match_classes]. unfold full_match. cbn [match_classes].
      destruct (p c); [|reflexivity].
      cbn in Hv. apply andb_true_iff in Hv as [_ Hv].
      assert (Hr' : rejects_space
                      (match t with "" => cs | _ => tl cs end) = true).
      { cbn [tl] in Hr. destruct t; [exact Hr|].
        destruct cs; [reflexivity|].
        cbn in Hr |- *. now apply andb_true_iff in Hr as [_ Hr]. }
      specialize (IH t Hv Hr'). unfold full_match in IH.
      destruct (match_classes cs (t ++ String " " (String c0 s0)))
        as [[m rest]|];
        destruct (match_classes cs t) as [[m' [|c' r']]|];
        try exact IH; try discriminate.
      destruct IH as [-> IH]. auto.
Qed.

Lemma first_match_group_spaces name alts r' t s c0 s0 found :
  is_word t = true ->
  s = String c0 s0 -> is_space c0 = false ->
  forallb (fun cs => rejects_space (tl cs)) alts = true ->
  first_match (Group name alts :: Spaces :: r') (t ++ String " " s) found
  = if accepts alts t
    then first_match r' s (found ++ [(name, t)])%list
    else None.
Proof.
  intros Hw Hs Hc0 Hrej. unfold first_match, accepts.
  cbn [re_match]. unfold match_group.
  assert (Hv : visible t = true) by (destruct t; [discriminate|exact Hw]).
  induction alts as [|cs alts IH]; [reflexivity|].
  cbn [flat_map existsb forallb] in *.
  apply andb_true_iff in Hrej as [Hcs Hrej].
  rewrite flat_map_app.
  pose proof (match_classes_token s c0 s0 Hs Hc0 cs t Hv) as T.
  assert (Hcs' : rejects_space
                   (match t with "" => cs | _ => tl cs end) = true)
    by (destruct t; [discriminate|exact Hcs]).
  specialize (T Hcs').
  destruct (match_classes cs (t ++ String " " s)) as [[m rest]|].
  - destruct (full_match cs t).
    + destruct T as [-> T]. cbn [flat_map fst snd]. rewrite T.
      cbn [flat_map orb]. rewrite app_nil_r.
      destruct (re_match r' s (found ++ [(name, t)])%list) as [|x l] eqn:E.
      * cbn [app]. rewrite IH by exact Hrej.
        destruct (existsb (fun cs0 => full_match cs0 t) alts); reflexivity.
      * reflexivity.
    + cbn [flat_map fst snd]. rewrite T. cbn [flat_map app orb].
      apply IH. exact Hrej.
  - rewrite T. cbn [flat_map app orb]. apply IH. exact Hrej.
Qed.

(** The last group, [%y], at the end of the string. *)
Lemma first_match_year name t found :
  match first_match [Group name re_y] t found with
  | Some (f, "") => accepts re_y t = true /\ f = (found ++ [(name, t)])%list
  | _ => accepts re_y t = false
  end.
Proof.
  unfold first_match, accepts, re_y, full_match.
  cbn [re_match match_group flat_map existsb match_classes].
  destruct t as [|c1 [|c2 t]]; try reflexivity.
  - destruct (d_ c1); reflexivity.
  - destruct (d_ c1); [|reflexivity].
    destruct (d_ c2); [|reflexivity].
    cbn. destruct t; cbn; auto.
Qed.

Lemma append_nil_r_aux t : t ++ "" = t.
Proof. induction t as [|c t IH]; cbn; [reflexivity | now rewrite IH]. Qed.

Lemma is_word_starts t s :
  is_word t = true ->
  exists c0 s0, t ++ s = String c0 s0 /\ is_space c0 = false.
Proof.
  destruct t as [|c t]; [discriminate|]. cbn. intros H.
  apply andb_true_iff in H as [H _]. apply negb_true_iff in H.
  exists c, (t ++ s). auto.
Qed.

Lemma pattern_DT_STR_FMT :
  pattern DT_STR_FMT false
  = Ok [Group "S" re_S; Spaces; Group "M" re_M; Spaces; Group "H" re_H;
        Spaces; Group "d" re_d; Spaces; Group "m" re_m; Spaces;
        Group "u" re_u; Spaces; Group "y" re_y].
Proof. reflexivity. Qed.

Lemma _strptime_first_match data format :
  _strptime data format
  = match pattern format false with
    | Raise e => Raise e
    | Ok rx =>
        match first_match rx data [] with
        | Some (found, "") => time_tuple found
        | _ => Raise ValueError
        end
    end.
Proof.
  unfold _strptime, first_match.
  destruct (pattern format false) as [rx|e]; [|reflexivity].
  destruct (re_match rx data []) as [|[found [|c rest]] l]; reflexivity.
Qed.

Local Ltac step W :=
  match goal with
  | |- context [first_match (Group ?n ?alts :: Spaces :: ?r)
                  (?t ++ String " " (?t' ++ ?s)) ?found] =>
      let c0 := fresh "c" in
      let s0 := fresh "s" in
      let E := fresh "E" in
      let Hc := fresh "Hc" in
      destruct (is_word_starts t' s W) as [c0 [s0 [E Hc]]];
      rewrite (first_match_group_spaces n alts r t (t' ++ s) c0 s0 found)
        by (assumption || reflexivity);
      clear E Hc c0 s0
  end.

(** On seven blank-separated words the format matches exactly when each
    group accepts its word, and the groups are then the words. *)
Lemma _strptime_words t1 t2 t3 t4 t5 t6 t7 :
  is_word t1 = true -> is_word t2 = true -> is_word t3 = true ->
  is_word t4 = true -> is_word t5 = true -> is_word t6 = true ->
  is_word t7 = true ->
  _strptime (join " " [t1; t2; t3; t4; t5; t6; t7]) DT_STR_FMT
  = if accepts re_S t1 && accepts re_M t2 && accepts re_H t3
       && accepts re_d t4 && accepts re_m t5 && accepts re_u t6
       && accepts re_y t7
    then time_tuple
           [("S"%char, t1); ("M"%char, t2); ("H"%char, t3);
            ("d"%char, t4); ("m"%char, t5); ("u"%char, t6);
            ("y"%char, t7)]
    else Raise ValueError.
Proof.
  intros W1 W2 W3 W4 W5 W6 W7.
  rewrite _strptime_first_match, pattern_DT_STR_FMT.
  cbn [join append].
  step W2.
  destruct (accepts re_S t1); [|reflexivity]. cbn [app andb].
  step W3.
  destruct (accepts re_M t2); [|reflexivity]. cbn [app andb].
  step W4.
  destruct (accepts re_H t3); [|reflexivity]. cbn [app andb].
  step W5.
  destruct (accepts re_d t4); [|reflexivity]. cbn [app andb].
  step W6.
  destruct (accepts re_m t5); [|reflexivity]. cbn [app andb].
  rewrite <- (append_nil_r_aux t7) at 1.
  step W7.
  destruct (accepts re_u t6); [|reflexivity]. cbn [app andb].
  rewrite append_nil_r_aux.
  pose proof (first_match_year "y"%char t7
                [("S"%char, t1); ("M"%char, t2); ("H"%char, t3);
                 ("d"%char, t4); ("m"%char, t5); ("u"%char, t6)]) as Y.
  destruct (first_match [Group "y" re_y] t7 _) as [[f [|c r]]|].
  - destruct Y as [-> ->]. reflexivity.
  - now rewrite Y.
  - now rewrite Y.
Qed.

Lemma int10_raise t e : int10 t = Raise e -> e = ValueError.
Proof.
  unfold int10. destruct t; [now intros [= <-]|].
  destruct (digits_value _ _ _ _); [discriminate | now intros [= <-]].
Qed.

Lemma time_tuple_words t1 t2 t3 t4 t5 t6 t7 :
  time_tuple
    [("S"%char, t1); ("M"%char, t2); ("H"%char, t3); ("d"%char, t4);
     ("m"%char, t5); ("u"%char, t6); ("y"%char, t7)]
  = match int10 t1, int10 t2, int10 t3, int10 t4, int10 t5, int10 t6,
          int10 t7 with
    | Ok s, Ok mi, Ok h, Ok d, Ok mo, Ok _, Ok y =>
        if _check_date_fields (pivot y) mo d
        then Ok (pivot y, mo, d, h, mi, s)
        else Raise ValueError
    | _, _, _, _, _, _, _ => Raise ValueError
    end.
Proof.
  unfold time_tuple. cbn [assign_all].
  destruct (int10 t1) as [v1|e] eqn:E1;
    [|now rewrite (int10_raise _ _ E1)].
  destruct (int10 t2) as [v2|e] eqn:E2;
    [|now rewrite (int10_raise _ _ E2)].
  destruct (int10 t3) as [v3|e] eqn:E3;
    [|now rewrite (int10_raise _ _ E3)].
  destruct (int10 t4) as [v4|e] eqn:E4;
    [|now rewrite (int10_raise _ _ E4)].
  destruct (int10 t5) as [v5|e] eqn:E5;
    [|now rewrite (int10_raise _ _ E5)].
  destruct (int10 t6) as [v6|e] eqn:E6;
    [|now rewrite (int10_raise _ _ E6)].
  destruct (int10 t7) as [v7|e] eqn:E7;
    [|now rewrite (int10_raise _ _ E7)].
  reflexivity.
Qed.

End MatchFacts.

(** ** Decoding a register frame *)

Section Decoding.

Import Text MatchFacts.

Lemma format_x_word b : is_byte b -> is_word (format_x b) = true.
Proof.
  intros Hb.
  apply (forall_range (fun b => is_word (format_x b)) 256);
    [|unfold is_byte in Hb; lia].
  vm_compute. reflexivity.
Qed.

(** What [read_datetime] returns for a frame of seven bytes, in terms of
    what each group reads from its byte. *)
Lemma datetime_of_regs_bytes b1 b2 b3 b4 b5 b6 b7 :
  Forall is_byte [b1; b2; b3; b4; b5; b6; b7] ->
  datetime_of_regs [b1; b2; b3; b4; b5; b6; b7]
  = match token_value re_S b1, token_value re_M b2, token_value re_H b3,
          token_value re_d b4, token_value re_m b5, token_value re_u b6,
          token_value re_y b7 with
    | Some s, Some mi, Some h, Some d, Some mo, Some _, Some y =>
        if _check_date_fields (pivot y) mo d
        then new (pivot y) mo d h mi s 0
        else Raise ValueError
    | _, _, _, _, _, _, _ => Raise ValueError
    end.
Proof.
  intros F.
  repeat match goal with
         | H : Forall _ (_ :: _) |- _ => inversion H; subst; clear H
         end.
  unfold datetime_of_regs, strptime. cbn [map].
  rewrite _strptime_words by now apply format_x_word.
  unfold token_value.
  destruct (accepts re_S (format_x b1)); [|reflexivity].
  destruct (accepts re_M (format_x b2));
    [|destruct (int10 (format_x b1)); reflexivity].
  destruct (accepts re_H (format_x b3));
    [|destruct (int10 (format_x b1)), (int10 (format_x b2)); reflexivity].
  destruct (accepts re_d (format_x b4));
    [|destruct (int10 (format_x b1)), (int10 (format_x b2)),
        (int10 (format_x b3)); reflexivity].
  destruct (accepts re_m (format_x b5));
    [|destruct (int10 (format_x b1)), (int10 (format_x b2)),
        (int10 (format_x b3)), (int10 (format_x b4)); reflexivity].
  destruct (accepts re_u (format_x b6));
    [|destruct (int10 (format_x b1)), (int10 (format_x b2)),
        (int10 (format_x b3)), (int10 (format_x b4)),
        (int10 (format_x b5)); reflexivity].
  destruct (accepts re_y (format_x b7));
    [|destruct (int10 (format_x b1)), (int10 (format_x b2)),
        (int10 (format_x b3)), (int10 (format_x b4)),
        (int10 (format_x b5)), (int10 (format_x b6)); reflexivity].
  cbn [andb]. rewrite time_tuple_words.
  destruct (int10 (format_x b1)), (int10 (format_x b2)),
    (int10 (format_x b3)), (int10 (format_x b4)),
    (int10 (format_x b5)), (int10 (format_x b6)),
    (int10 (format_x b7)); try reflexivity.
  match goal with
  | |- context [if ?c then _ else _] => destruct c
  end; reflexivity.
Qed.

(** *** What each group reads from a byte, checked on all 256 bytes *)

Lemma byte_cases (P : Z -> bool) :
  forallb P (range 256) = true -> forall b, is_byte b -> P b = true.
Proof.
  intros H b Hb. apply (forall_range P 256 H). unfold is_byte in Hb. lia.
Qed.

(** A byte that is not a BCD number of the field's range is refused by
    the field's group. *)
Lemma token_value_rejects alts lo hi :
  forallb
    (fun b => field_ok lo hi b
              || match token_value alts b with None => true | _ => false end)
    (range 256) = true ->
  forall b, is_byte b -> field_ok lo hi b = false ->
            token_value alts b = None.
Proof.
  intros H b Hb Hf. pose proof (byte_cases _ H b Hb) as E. cbn beta in E.
  rewrite Hf in E. destruct (token_value alts b); [discriminate|reflexivity].
Qed.

Lemma re_M_rejects b :
  is_byte b -> field_ok 0 59 b = false -> token_value re_M b = None.
Proof. apply token_value_rejects. vm_compute. reflexivity. Qed.

Lemma re_H_rejects b :
  is_byte b -> field_ok 0 23 b = false -> token_value re_H b = None.
Proof. apply token_value_rejects. vm_compute. reflexivity. Qed.

Lemma re_d_rejects b :
  is_byte b -> field_ok 1 31 b = false -> token_value re_d b = None.
Proof. apply token_value_rejects. vm_compute. reflexivity. Qed.

Lemma re_m_rejects b :
  is_byte b -> field_ok 1 12 b = false -> token_value re_m b = None.
Proof. apply token_value_rejects. vm_compute. reflexivity. Qed.

Lemma re_u_rejects b :
  is_byte b -> field_ok 1 7 b = false -> token_value re_u b = None.
Proof. apply token_value_rejects. vm_compute. reflexivity. Qed.

Lemma re_y_rejects b :
  is_byte b -> field_ok 0 99 b = false -> token_value re_y b = None.
Proof. apply token_value_rejects. vm_compute. reflexivity. Qed.

(** [%S] also lets 60 and 61 through; the constructor refuses them. *)
Lemma re_S_rejects b :
  is_byte b -> field_ok 0 59 b = false ->
  match token_value re_S b with
  | None => True
  | Some v => 59 < v
  end.
Proof.
  intros Hb Hf.
  pose proof (byte_cases
                (fun b => field_ok 0 59 b
                          || match token_value re_S b with
                             | None => true
                             | Some v => 59 <? v
                             end)
                ltac:(vm_compute; reflexivity) b Hb) as E.
  cbn beta in E. rewrite Hf in E.
  destruct (token_value re_S b); [|exact I]. now apply Z.ltb_lt.
Qed.










Lemma bcd_is_byte v : 0 <= v <= 99 -> is_byte (bcd v).
Proof.
  intros Hv. unfold is_byte, bcd.
  pose proof (Z.mod_pos_bound v 10 ltac:(lia)).
  assert (0 <= v / 10 <= 9).
  { split; [apply Z.div_pos; lia|].
    apply Z.lt_succ_r, Z.div_lt_upper_bound; lia. }
  lia.
Qed.

(** *** Frames that are refused *)

Lemma new_second_out_of_range y m d H Mi Se us :
  59 < Se -> new y m d H Mi Se us = Raise ValueError.
Proof.
  intros Hs. unfold new, _check_time_fields.
  destruct (Z.leb_spec Se 59); [lia|].
  now rewrite !andb_false_r.
Qed.

Lemma datetime_of_regs_rejects regs :
  Forall is_byte regs -> List.length regs = 7%nat ->
  frame_ok regs = false ->
  datetime_of_regs regs = Raise ValueError.
Proof.
  intros F L Hf.
  destruct regs as [|b1 [|b2 [|b3 [|b4 [|b5 [|b6 [|b7 [|]]]]]]]];
    try discriminate.
  rewrite datetime_of_regs_bytes by exact F.
  repeat match goal with
         | H : Forall _ (_ :: _) |- _ => inversion H; subst; clear H
         end.
  cbn [frame_ok] in Hf.
  destruct (field_ok 0 59 b1) eqn:E1.
  2:{ pose proof (re_S_rejects b1 ltac:(assumption) E1) as S.
      destruct (token_value re_S b1); [|reflexivity].
      repeat match goal with
             | |- context [match token_value ?r ?b with _ => _ end] =>
                 destruct (token_value r b); try reflexivity
             end.
      rewrite new_second_out_of_range by exact S.
      match goal with
      | |- context [if ?c then _ else _] => destruct c
      end; reflexivity. }
  destruct (field_ok 0 59 b2) eqn:E2.
  2:{ rewrite re_M_rejects by assumption.
      destruct (token_value re_S b1); reflexivity. }
  destruct (field_ok 0 23 b3) eqn:E3.
  2:{ rewrite re_H_rejects by assumption.
      destruct (token_value re_S b1), (token_value re_M b2); reflexivity. }
  destruct (field_ok 1 31 b4) eqn:E4.
  2:{ rewrite re_d_rejects by assumption.
      destruct (token_value re_S b1), (token_value re_M b2),
        (token_value re_H b3); reflexivity. }
  destruct (field_ok 1 12 b5) eqn:E5.
  2:{ rewrite re_m_rejects by assumption.
      destruct (token_value re_S b1), (token_value re_M b2),
        (token_value re_H b3), (token_value re_d b4); reflexivity. }
  destruct (field_ok 1 7 b6) eqn:E6.
  2:{ rewrite re_u_rejects by assumption.
      destruct (token_value re_S b1), (token_value re_M b2),
        (token_value re_H b3), (token_value re_d b4),
        (token_value re_m b5); reflexivity. }
  destruct (field_ok 0 99 b7) eqn:E7; [discriminate|].
  rewrite re_y_rejects by assumption.
  destruct (token_value re_S b1), (token_value re_M b2),
    (token_value re_H b3), (token_value re_d b4),
    (token_value re_m b5), (token_value re_u b6); reflexivity.
Qed.

End Decoding.

(** ** Round trip of a calendar value through the register frame *)

Section RoundTrip.

Import Text.




(** Whatever is read back carries a year between 1969 and 2068. *)
Lemma decoded_year_window regs dt :
  Forall is_byte regs -> List.length regs = 7%nat ->
  datetime_of_regs regs = Ok dt -> 1969 <= year dt <= 2068.
Proof.
  intros F L.
  destruct regs as [|b1 [|b2 [|b3 [|b4 [|b5 [|b6 [|b7 [|]]]]]]]];
    try discriminate.
  rewrite datetime_of_regs_bytes by exact F.
  assert (Hy : forall y, token_value re_y b7 = Some y -> 0 <= y <= 99).
  { intros y Hy.
    assert (Hb : is_byte b7) by (inversion F as [|? ? ? F1]; subst;
      repeat (inversion F1 as [|? ? ? F2]; subst; clear F1;
              try rename F2 into F1); assumption).
    pose proof (byte_cases
                  (fun b => match token_value re_y b with
                            | Some y => (0 <=? y) && (y <=? 99)
                            | None => true
                            end)
                  ltac:(vm_compute; reflexivity) b7 Hb) as E.
    cbn beta in E. rewrite Hy in E.
    apply andb_true_iff in E as [E1 E2].
    apply Z.leb_le in E1, E2. lia. }
  destruct (token_value re_S b1); [|discriminate].
  destruct (token_value re_M b2); [|discriminate].
  destruct (token_value re_H b3); [|discriminate].
  destruct (token_value re_d b4); [|discriminate].
  destruct (token_value re_m b5); [|discriminate].
  destruct (token_value re_u b6); [|discriminate].
  destruct (token_value re_y b7) as [y|]; [|discriminate].
  specialize (Hy y eq_refl).
  destruct (_check_date_fields _ _ _); [|discriminate].
  unfold new. destruct (_ && _); [|discriminate].
  intros [= <-]. cbn [year]. unfold pivot.
  destruct (Z.leb_spec y 68); lia.
Qed.

End RoundTrip.

(** ** The four data operations on the wire *)

Section Operations.

Variable chip : list call -> Z.
Variable self : DS1302.

Lemma write_bytes_calls_cons b bytes :
  write_bytes_calls self (b :: bytes)
  = write_byte_calls self b ++ write_bytes_calls self bytes.
Proof. reflexivity. Qed.

Lemma write_datetime_run dt h :
  runs (write_datetime self dt) h tt
    (framed self
       (write_bytes_calls self
          (REG_BURST_WRITE
             :: [nibbles (second dt); nibbles (minute dt);
                 nibbles (hour dt); nibbles (day dt); nibbles (month dt);
                 isoweekday dt; nibbles (year dt mod 100)] ++ [0; 0]))).
Proof.
  unfold write_datetime. rewrite regs_of_datetime_nibbles.
  unfold runs. rewrite bind_lift_ok.
  apply runs_transaction. rewrite write_bytes_calls_cons.
  eapply runs_bind; [apply runs_write_byte | apply write_bytes_run].
Qed.

Lemma write_datetime_valid_run dt h :
  valid dt = true ->
  runs (write_datetime self dt) h tt
    (framed self
       (write_bytes_calls self
          (REG_BURST_WRITE :: map bcd (wire_fields dt) ++ [0; 0]))).
Proof.
  intros Hv. unfold write_datetime.
  rewrite regs_of_datetime_valid by exact Hv.
  unfold runs. rewrite bind_lift_ok.
  apply runs_transaction. rewrite write_bytes_calls_cons.
  eapply runs_bind; [apply runs_write_byte | apply write_bytes_run].
Qed.

Lemma datetime_of_regs_raise regs e :
  datetime_of_regs regs = Raise e -> e = ValueError.
Proof.
  unfold datetime_of_regs, strptime.
  rewrite MatchFacts._strptime_first_match, MatchFacts.pattern_DT_STR_FMT.
  destruct (first_match _ _ _) as [[found [|c rest]]|];
    try (now intros [= <-]).
  unfold time_tuple.
  assert (A : forall found f e, assign_all found f = Raise e -> e = ValueError).
  { clear. induction found as [|[k t] found IH]; intros f e; cbn.
    - discriminate.
    - destruct (Text.int10 t) eqn:E.
      + apply IH.
      + intros [= <-]. eapply MatchFacts.int10_raise, E. }
  destruct (assign_all found fields0) as [f|e'] eqn:E.
  - destruct (_check_date_fields _ _ _); [|now intros [= <-]].
    unfold new. destruct (_ && _); [discriminate | now intros [= <-]].
  - intros [= <-]. eapply A, E.
Qed.

End Operations.

(** ** The claims *)


(** C10: [write_ram] on an empty block still runs one whole transaction:
    clock low and reset high, the data pin set to output, the eight bits of
    0xFE clocked out lowest first, no data byte, then the data pin set to
    input, clock low and reset low. *)
Theorem C10_write_ram_empty_block (self : DS1302) (h : list call) :
  write_ram self [] h
  = (Ok tt,
     h ++ [output (_clk_pin self) LOW; output (_rst_pin self) HIGH;
           setup [_io_pin self] OUT None]
       ++ flat_map (bit_cell self) [0; 1; 1; 1; 1; 1; 1; 1]
       ++ [setup [_io_pin self] IN None;
           output (_clk_pin self) LOW; output (_rst_pin self) LOW]).
Proof.
  pose proof (write_ram_run self [] h) as R. unfold runs in R.
  rewrite R. reflexivity.
Qed.

Lemma calls_of_snd {A} (m : M A) h t : snd (m h) = h ++ t -> calls_of m h = t.
Proof.
  unfold calls_of. intros ->.
  rewrite skipn_app, skipn_all, Nat.sub_diag. reflexivity.
Qed.

(** C5: the eight command constants have the values of the table, and
    every transaction the driver opens starts with the command byte of its
    target and direction: 0x8E then 0x90 in [__init__], 0xFF in [read_ram],
    0xFE in [write_ram], 0xBF in [read_datetime], 0xBE in
    [write_datetime].  After 0xFF, [read_ram] reads 31 bytes when the data
    line reads as 0 or 1; on any data line it reads between 1 and 31 bytes,
    the transaction being cut short, and still closed, when a byte read is
    outside 0..255 and [bytearray.append] raises. *)
Theorem C5_command_bytes (chip : list call -> Z) (self : DS1302)
    (h : list call) :
  [WP_REG_READ; WP_REG_WRITE; CHR_REG_READ; CHR_REG_WRITE;
   REG_BURST_READ; REG_BURST_WRITE; RAM_BURST_READ; RAW_BURST_WRITE]
  = [0x8F; 0x8E; 0x91; 0x90; 0xBF; 0xBE; 0xFF; 0xFE]
  /\ (forall mode,
        calls_of (__init__ self mode) h
        = [setmode mode; setup [_clk_pin self; _rst_pin self] OUT (Some LOW)]
          ++ framed self (write_byte_calls self 0x8E ++ write_byte_calls self 0)
          ++ framed self (write_byte_calls self 0x90 ++ write_byte_calls self 0))
  /\ (exists n,
        (1 <= n <= 31)%nat
        /\ calls_of (read_ram chip self) h
           = framed self
               (write_byte_calls self 0xFF ++ read_bytes_calls self n))
  /\ (bit_chip chip ->
      calls_of (read_ram chip self) h
      = framed self (write_byte_calls self 0xFF ++ read_bytes_calls self 31))
  /\ (forall ram,
        calls_of (write_ram self ram) h
        = framed self
            (write_byte_calls self 0xFE
             ++ write_bytes_calls self (firstn 31 ram)))
  /\ calls_of (read_datetime chip self) h
     = framed self (write_byte_calls self 0xBF ++ read_bytes_calls self 7)
  /\ (forall dt,
        exists regs,
          calls_of (write_datetime self dt) h
          = framed self
              (write_byte_calls self 0xBE ++ write_bytes_calls self regs)).
Proof.
  split; [reflexivity|].
  split; [intros mode; eapply runs_calls_of, init_run|].
  split; [apply read_ram_calls|].
  split.
  { intros Hc. destruct (read_ram_run chip self h Hc) as [ram [R _]].
    eapply runs_calls_of, R. }
  split; [intros ram; eapply runs_calls_of, write_ram_run|].
  split; [apply calls_of_snd, read_datetime_calls|].
  intros dt. eexists.
  rewrite <- write_bytes_calls_cons.
  eapply runs_calls_of, write_datetime_run.
Qed.

Lemma C5_command_bytes_witness :
  calls_of (read_ram (fun _ => 1) default_pins) []
  = framed default_pins
      (write_byte_calls default_pins 0xFF ++ read_bytes_calls default_pins 31).
Proof.
  refine (proj1 (proj2 (proj2 (proj2
            (C5_command_bytes (fun _ => 1) default_pins [])))) _).
  intros h. right. reflexivity.
Defined.

(** C4: for a [datetime] object, [write_datetime] performs one transaction
    that sends 0xBE, then the BCD bytes of second, minute, hour, day of
    month, month, weekday and two-digit year in that order, then two zero
    bytes. *)
Theorem C4_write_datetime_frame (self : DS1302) (dt : datetime)
    (h : list call) :
  valid dt = true ->
  write_datetime self dt h
  = (Ok tt,
     h ++ framed self
            (write_bytes_calls self
               (0xBE
                  :: [bcd (second dt); bcd (minute dt); bcd (hour dt);
                      bcd (day dt); bcd (month dt); bcd (isoweekday dt);
                      bcd (year dt mod 100)]
                  ++ [0; 0]))).
Proof.
  intros Hv. apply (write_datetime_valid_run self dt h Hv).
Qed.

Lemma C4_write_datetime_frame_witness :
  valid monday_2024 = true
  /\ write_datetime default_pins monday_2024 []
     = (Ok tt,
        [] ++ framed default_pins
                (write_bytes_calls default_pins
                   [0xBE; 0x45; 0x30; 0x10; 0x15; 0x01; 0x01; 0x24; 0; 0])).
Proof.
  split; [reflexivity|].
  exact (C4_write_datetime_frame default_pins monday_2024 [] eq_refl).
Defined.

(** C8, as stated, fails: after [__del__] has released the pins,
    [read_datetime] on the default pins still issues its calls and, with a
    chip that answers, returns a calendar value. *)
Lemma C8_read_after_teardown_runs :
  let after := snd (__del__ default_pins []) in
  fst (read_datetime (shift_out monday_2024_frame) default_pins after)
  = Ok monday_2024
  /\ calls_of (read_datetime (shift_out monday_2024_frame) default_pins) after
     <> [].
Proof.
  cbv zeta. split.
  - vm_compute. reflexivity.
  - rewrite (calls_of_snd _ _ _ (read_datetime_calls _ default_pins _)).
    discriminate.
Qed.

(** C8, amended: the driver keeps no lifecycle state.  [__del__] issues one
    [cleanup] of the data, clock and reset pins and nothing else;
    [read_datetime] called afterwards issues exactly the calls of its
    burst-read transaction, the same as before teardown, and the only
    exception it can raise is the decoder's [ValueError]. *)
Theorem C8_no_lifecycle_gate (chip : list call -> Z) (self : DS1302)
    (h : list call) :
  let after := snd (__del__ self h) in
  after = h ++ [cleanup [_io_pin self; _clk_pin self; _rst_pin self]]
  /\ calls_of (read_datetime chip self) after
     = framed self (write_byte_calls self 0xBF ++ read_bytes_calls self 7)
  /\ calls_of (read_datetime chip self) after
     = calls_of (read_datetime chip self) h
  /\ match fst (read_datetime chip self after) with
     | Ok _ => True
     | Raise e => e = ValueError
     end.
Proof.
  cbv zeta. split; [reflexivity|].
  rewrite !(calls_of_snd _ _ _ (read_datetime_calls chip self _)).
  split; [reflexivity|]. split; [reflexivity|].
  destruct (read_datetime_regs_run chip self (snd (__del__ self h)))
    as [regs [R _]].
  unfold read_datetime, bind. unfold runs in R. rewrite R.
  unfold lift. cbn [fst].
  destruct (datetime_of_regs regs) as [dt|e] eqn:E; [exact I|].
  eapply datetime_of_regs_raise, E.
Qed.

(** C6: when the seven bytes read from the chip are not all BCD numbers
    within the ranges of their calendar fields (a nibble above 9, or a
    value such as month 13 or hour 25), [read_datetime] raises
    [ValueError]; it returns no calendar value. *)
Theorem C6_read_datetime_rejects (chip : list call -> Z) (self : DS1302)
    (h : list call) (regs : list Z) (h' : list call) :
  read_datetime_regs chip self h = (Ok regs, h') ->
  Forall is_byte regs ->
  frame_ok regs = false ->
  read_datetime chip self h = (Raise ValueError, h').
Proof.
  intros R F Hf.
  destruct (read_datetime_regs_run chip self h) as [regs' [R' L]].
  unfold runs in R'. rewrite R in R'. injection R' as -> ->.
  unfold read_datetime, bind. rewrite R. unfold lift.
  now rewrite datetime_of_regs_rejects.
Qed.

Lemma C6_read_datetime_rejects_witness :
  read_datetime (fun _ => 1) default_pins []
  = (Raise ValueError, snd (read_datetime_regs (fun _ => 1) default_pins [])).
Proof.
  apply (C6_read_datetime_rejects (fun _ => 1) default_pins []
           [255; 255; 255; 255; 255; 255; 255]).
  - vm_compute. reflexivity.
  - repeat constructor; unfold is_byte; lia.
  - reflexivity.
Defined.

(** The three frames the specification names. *)
Example nibble_A_is_refused :
  datetime_of_regs [0x4A; 0x30; 0x10; 0x15; 0x01; 0x01; 0x24]
  = Raise ValueError.
Proof. vm_compute. reflexivity. Qed.

Example month_13_is_refused :
  datetime_of_regs [0x45; 0x30; 0x10; 0x15; 0x13; 0x01; 0x24]
  = Raise ValueError.
Proof. vm_compute. reflexivity. Qed.

Example hour_25_is_refused :
  datetime_of_regs [0x45; 0x30; 0x25; 0x15; 0x01; 0x01; 0x24]
  = Raise ValueError.
Proof. vm_compute. reflexivity. Qed.

(** C1 at a failing input: Saturday 2005-01-15 10:30:45 is a valid calendar
    value; [write_datetime] encodes it as 45 30 10 15 01 06 05 (hex) plus
    two zero bytes; decoding those seven bytes raises [ValueError], both in
    the decoding expression and in [read_datetime] on a chip that shifts
    the frame out. *)
Theorem C1_round_trip_fails_in_2005 :
  valid saturday_2005 = true
  /\ regs_of_datetime saturday_2005 = Ok (saturday_2005_frame ++ [0; 0])
  /\ datetime_of_regs saturday_2005_frame = Raise ValueError
  /\ fst (read_datetime (shift_out saturday_2005_frame) default_pins
            (snd (write_datetime default_pins saturday_2005 [])))
     = Raise ValueError.
Proof.
  split; [reflexivity|]. split; [vm_compute; reflexivity|].
  split; vm_compute; reflexivity.
Qed.

(** C9 at failing inputs: year bytes 0x00 and 0x09 make the decoder raise
    instead of giving 2000 and 2009, while 0x10, 0x68, 0x69 and 0x99 give
    2010, 2068, 1969 and 1999. *)
Theorem C9_year_bytes_below_0x10_raise :
  map (fun y => decoded_year (year_frame y))
    [0x00; 0x09; 0x10; 0x68; 0x69; 0x99]
  = [None; None; Some 2010; Some 2068; Some 1969; Some 1999].
Proof. vm_compute. reflexivity. Qed.

(** The pivot on every year byte from 0x10 on. *)
Lemma year_pivot_from_10 yy :
  10 <= yy <= 99 -> decoded_year (year_frame (bcd yy)) = Some (pivot yy).
Proof.
  intros Hy.
  pose proof (forall_range
                (fun yy =>
                   (yy <? 10)
                   || match decoded_year (year_frame (bcd yy)) with
                      | Some y => y =? pivot yy
                      | None => false
                      end)
                100 ltac:(vm_compute; reflexivity) yy ltac:(lia)) as E.
  cbn beta in E. destruct (Z.ltb_spec yy 10); [lia|]. cbn [orb] in E.
  destruct (decoded_year (year_frame (bcd yy))); [|discriminate].
  apply Z.eqb_eq in E. now subst.
Qed.

(** A year outside 1969-2068 never comes back from the chip. *)
Lemma year_outside_window_is_lost dt dt' :
  valid dt = true ->
  ~ (1969 <= year dt <= 2068) ->
  datetime_of_regs (map bcd (wire_fields dt)) = Ok dt' ->
  year dt' <> year dt.
Proof.
  intros Hv Hy D.
  pose proof (valid_ranges dt Hv) as R.
  pose proof (isoweekday_range dt) as W.
  pose proof (Z.mod_pos_bound (year dt) 100 ltac:(lia)) as Y.
  assert (F : Forall is_byte (map bcd (wire_fields dt))).
  { unfold wire_fields. cbn [map].
    repeat constructor; apply bcd_is_byte; lia. }
  pose proof (decoded_year_window _ _ F eq_refl D). lia.
Qed.

(** ** Bit order and the loopback harness *)

Section Loopback.

Variable self : DS1302.
Hypothesis io_not_clk : _io_pin self <> _clk_pin self.

Lemma io_writes_app t1 t2 :
  io_writes self (t1 ++ t2) = io_writes self t1 ++ io_writes self t2.
Proof. unfold io_writes. apply flat_map_app. Qed.

Lemma reads_app t1 t2 : reads (t1 ++ t2) = (reads t1 + reads t2)%nat.
Proof. unfold reads. now rewrite filter_app, length_app. Qed.

Lemma io_writes_bit_cells bits :
  io_writes self (flat_map (bit_cell self) bits) = bits.
Proof.
  induction bits as [|b bits IH]; [reflexivity|].
  cbn [flat_map]. rewrite io_writes_app, IH.
  unfold bit_cell, io_writes. cbn [flat_map app].
  rewrite Z.eqb_refl.
  destruct (Z.eqb_spec (_clk_pin self) (_io_pin self)) as [E|_];
    [now symmetry in E|].
  reflexivity.
Qed.

Lemma reads_bit_cells bits : reads (flat_map (bit_cell self) bits) = 0%nat.
Proof.
  induction bits as [|b bits IH]; [reflexivity|].
  cbn [flat_map]. rewrite reads_app, IH. reflexivity.
Qed.

Lemma io_writes_write_byte v :
  io_writes self (write_byte_calls self v) = bits_lsb_first 8 v.
Proof.
  unfold write_byte_calls.
  change (setup [_io_pin self] OUT None
            :: flat_map (bit_cell self) (bits_lsb_first 8 v))
    with ([setup [_io_pin self] OUT None]
            ++ flat_map (bit_cell self) (bits_lsb_first 8 v)).
  rewrite io_writes_app, io_writes_bit_cells. reflexivity.
Qed.

Lemma reads_write_byte v : reads (write_byte_calls self v) = 0%nat.
Proof.
  unfold write_byte_calls.
  change (setup [_io_pin self] OUT None
            :: flat_map (bit_cell self) (bits_lsb_first 8 v))
    with ([setup [_io_pin self] OUT None]
            ++ flat_map (bit_cell self) (bits_lsb_first 8 v)).
  rewrite reads_app, reads_bit_cells. reflexivity.
Qed.

Lemma land_1_mod v : Z.land v 1 = v mod 2.
Proof. change 1 with (Z.ones 1). now rewrite Z.land_ones by lia. Qed.

(** The n-th level driven is bit n of the byte. *)
Lemma bits_lsb_first_testbit (n : nat) : forall (i : nat) v,
  bits_lsb_first n (Z.shiftr v (Z.of_nat i))
  = map (fun k => Z.b2z (Z.testbit v k)) (map Z.of_nat (seq i n)).
Proof.
  induction n as [|n IH]; intros i v; [reflexivity|].
  cbn [bits_lsb_first seq map]. f_equal.
  - rewrite land_1_mod, <- Z.bit0_mod.
    rewrite Z.shiftr_spec by lia. reflexivity.
  - rewrite Z.shiftr_shiftr by lia.
    replace (Z.of_nat i + 1) with (Z.of_nat (S i)) by lia.
    apply IH.
Qed.

Lemma from_bits_of_byte v :
  is_byte v -> from_bits_lsb_first (bits_lsb_first 8 v) = v.
Proof.
  intros Hv. apply Z.eqb_eq.
  apply (byte_cases (fun v => from_bits_lsb_first (bits_lsb_first 8 v) =? v));
    [|exact Hv].
  vm_compute. reflexivity.
Qed.

Lemma bits_lsb_first_bits n : forall v,
  Forall (fun b => b = 0 \/ b = 1) (bits_lsb_first n v).
Proof.
  induction n as [|n IH]; intros v; cbn [bits_lsb_first]; constructor.
  - rewrite land_1_mod. pose proof (Z.mod_pos_bound v 2). lia.
  - apply IH.
Qed.

Lemma nth_hd_skipn {A} (l : list A) : forall r d,
  nth r l d = hd d (skipn r l).
Proof.
  induction l as [|x l IH]; intros [|r] d; try reflexivity. cbn. apply IH.
Qed.

Lemma skipn_S_tl {A} (l : list A) : forall r, skipn (S r) l = tl (skipn r l).
Proof.
  induction l as [|x l IH]; intros [|r]; try reflexivity.
  change (skipn (S (S r)) (x :: l)) with (skipn (S r) l).
  change (skipn (S r) (x :: l)) with (skipn r l). apply IH.
Qed.

(** Sampling [n] times under loopback returns the [n] oldest levels that
    were driven and not yet read. *)
Lemma loopback_samples (n : nat) : forall hist pending,
  skipn (reads hist) (io_writes self hist) = pending ->
  (n <= List.length pending)%nat ->
  samples (loopback self) hist (List.concat (repeat (sample_cell self) n))
  = firstn n pending.
Proof.
  induction n as [|n IH]; intros hist pending Hp Hn; [reflexivity|].
  cbn [repeat List.concat]. rewrite samples_app.
  destruct pending as [|x pending]; [cbn in Hn; lia|].
  assert (Hcell : samples (loopback self) hist (sample_cell self) = [x]).
  { unfold sample_cell. cbn [samples]. f_equal.
    rewrite <- !app_assoc. cbn [app]. unfold loopback.
    rewrite reads_app, io_writes_app.
    replace (reads [output (_clk_pin self) HIGH; sleep CLK_DELAY;
                    output (_clk_pin self) LOW; sleep CLK_DELAY])
      with 0%nat by reflexivity.
    replace (io_writes self
               [output (_clk_pin self) HIGH; sleep CLK_DELAY;
                output (_clk_pin self) LOW; sleep CLK_DELAY])
      with (@nil Z).
    - rewrite Nat.add_0_r, app_nil_r, nth_hd_skipn, Hp. reflexivity.
    - unfold io_writes. cbn [flat_map app].
      destruct (Z.eqb_spec (_clk_pin self) (_io_pin self)) as [E|_];
        [now symmetry in E|].
      reflexivity. }
  rewrite Hcell. cbn [app firstn]. f_equal.
  apply IH; [|cbn in Hn; lia].
  rewrite reads_app, io_writes_app.
  replace (reads (sample_cell self)) with 1%nat by reflexivity.
  replace (io_writes self (sample_cell self)) with (@nil Z).
  - rewrite app_nil_r, Nat.add_1_r, skipn_S_tl, Hp. reflexivity.
  - unfold sample_cell, io_writes. cbn [flat_map app].
    destruct (Z.eqb_spec (_clk_pin self) (_io_pin self)) as [E|_];
      [now symmetry in E|].
    reflexivity.
Qed.

(** What [_read_byte] samples right after [_write_byte v] under loopback. *)
Lemma loopback_after_write v h :
  List.length (io_writes self h) = reads h ->
  samples (loopback self) (h ++ write_byte_calls self v)
    (read_byte_calls self)
  = bits_lsb_first 8 v.
Proof.
  intros Ha. unfold read_byte_calls.
  change (setup [_io_pin self] IN None
            :: List.concat (repeat (sample_cell self) 8))
    with ([setup [_io_pin self] IN None]
            ++ List.concat (repeat (sample_cell self) 8)).
  rewrite samples_app. cbn [samples app].
  rewrite (loopback_samples 8 _ (bits_lsb_first 8 v)); [reflexivity | | cbn; lia].
  rewrite !reads_app, !io_writes_app, reads_write_byte, io_writes_write_byte.
  cbn [reads io_writes flat_map filter List.length].
  rewrite !Nat.add_0_r, app_nil_r.
  rewrite skipn_app, <- Ha, skipn_all, Nat.sub_diag. reflexivity.
Qed.

End Loopback.

(** C2: [_write_byte] drives the data pin with bit 0 of the byte first and
    bit 7 last; [_read_byte] puts the first sampled bit at bit 0 and the
    last at bit 7; so, under a loopback that returns to each sample the
    oldest level driven and not yet read, [_read_byte] after
    [_write_byte v] returns [v], for every byte [v]. *)
Theorem C2_bit_order_loopback (self : DS1302) (v : Z) (h : list call) :
  is_byte v ->
  _io_pin self <> _clk_pin self ->
  List.length (io_writes self h) = reads h ->
  io_writes self (calls_of (_write_byte self v) h)
  = map (fun i => Z.b2z (Z.testbit v i)) [0; 1; 2; 3; 4; 5; 6; 7]
  /\ (forall chip h', bit_chip chip ->
        fst (_read_byte chip self h')
        = Ok (from_bits_lsb_first (samples chip h' (read_byte_calls self))))
  /\ fst (_read_byte (loopback self) self (snd (_write_byte self v h))) = Ok v.
Proof.
  intros Hv Hpins Ha. split; [|split].
  - rewrite (runs_calls_of _ _ _ _ (runs_write_byte self v h)).
    rewrite io_writes_write_byte by exact Hpins.
    apply (bits_lsb_first_testbit 8 0 v).
  - intros chip h' Hc. eapply runs_fst, read_byte_value, Hc.
  - rewrite (runs_snd _ _ _ _ (runs_write_byte self v h)).
    pose proof (loopback_after_write self Hpins v h Ha) as S.
    pose proof (read_byte_value_bits (loopback self) self
                  (h ++ write_byte_calls self v)) as R.
    rewrite S in R. specialize (R (bits_lsb_first_bits 8 v)).
    rewrite from_bits_of_byte in R by exact Hv.
    eapply runs_fst, R.
Qed.

Lemma C2_bit_order_loopback_witness :
  fst (_read_byte (loopback default_pins) default_pins
         (snd (_write_byte default_pins 0xA5 [])))
  = Ok 0xA5.
Proof.
  apply (C2_bit_order_loopback default_pins 0xA5 []).
  - unfold is_byte. lia.
  - discriminate.
  - reflexivity.
Defined.

(** ** Transaction framing *)

Section Framing.

Variable self : DS1302.
Hypothesis distinct : NoDup [_clk_pin self; _io_pin self; _rst_pin self].

Lemma clk_not_io : _clk_pin self <> _io_pin self.
Proof.
  inversion distinct as [|? ? H _]; subst.
  intros E. apply H. left. now symmetry.
Qed.

Lemma clk_not_rst : _clk_pin self <> _rst_pin self.
Proof.
  inversion distinct as [|? ? H _]; subst.
  intros E. apply H. right. left. now symmetry.
Qed.

Lemma io_not_rst : _io_pin self <> _rst_pin self.
Proof.
  inversion distinct as [|? ? _ D]; subst.
  inversion D as [|? ? H _]; subst.
  intros E. apply H. left. now symmetry.
Qed.

Lemma eqb_clk_io : (_clk_pin self =? _io_pin self) = false.
Proof. apply Z.eqb_neq, clk_not_io. Qed.

Lemma eqb_io_clk : (_io_pin self =? _clk_pin self) = false.
Proof. apply Z.eqb_neq. intros E. now apply clk_not_io. Qed.

Lemma eqb_clk_rst : (_clk_pin self =? _rst_pin self) = false.
Proof. apply Z.eqb_neq, clk_not_rst. Qed.

Lemma eqb_rst_clk : (_rst_pin self =? _clk_pin self) = false.
Proof. apply Z.eqb_neq. intros E. now apply clk_not_rst. Qed.

Lemma eqb_io_rst : (_io_pin self =? _rst_pin self) = false.
Proof. apply Z.eqb_neq, io_not_rst. Qed.

Lemma eqb_rst_io : (_rst_pin self =? _io_pin self) = false.
Proof. apply Z.eqb_neq. intros E. now apply io_not_rst. Qed.

Lemma replay_app p t1 t2 :
  replay self p (t1 ++ t2) = replay self (replay self p t1) t2.
Proof. unfold replay. apply fold_left_app. Qed.

Lemma steps_app t1 : forall p t2,
  steps self p (t1 ++ t2)
  = steps self p t1 ++ steps self (replay self p t1) t2.
Proof.
  induction t1 as [|c t1 IH]; intros p t2; [reflexivity|].
  cbn [app steps]. now rewrite IH.
Qed.

Lemma steps_calls (Q : call -> Prop) t : forall p,
  Forall Q t -> Forall (fun s => Q (snd s)) (steps self p t).
Proof.
  induction t as [|c t IH]; intros p F; cbn [steps]; [constructor|].
  inversion F; subst. constructor; [assumption | now apply IH].
Qed.

(** *** The calls of an exchange leave reset alone *)

Lemma exchange_keeps_rst p c :
  exchange_call self c -> rst_level (drive self p c) = rst_level p.
Proof.
  destruct c as [m|ps d i|pin v|pin|ps|us]; cbn; try tauto.
  - intros ->. unfold level_after_setup, mem. cbn [existsb].
    now rewrite eqb_rst_io.
  - intros [-> | ->]; [now rewrite eqb_clk_rst | now rewrite eqb_io_rst].
Qed.

Lemma exchange_is_not_rst_low c :
  exchange_call self c -> c <> output (_rst_pin self) LOW.
Proof.
  destruct c as [m|ps d i|pin v|pin|ps|us]; cbn; try discriminate.
  intros [-> | ->] [= E _].
  - now apply clk_not_rst.
  - now apply io_not_rst.
Qed.

Lemma exchange_rst_high body : forall p,
  Forall (exchange_call self) body ->
  rst_high p ->
  Forall (fun s => rst_high (fst s) /\ rst_high (drive self (fst s) (snd s)))
    (steps self p body)
  /\ rst_high (replay self p body).
Proof.
  induction body as [|c body IH]; intros p F Hp.
  - split; [constructor | exact Hp].
  - inversion F as [|? ? Hc F']; subst.
    assert (Hp' : rst_high (drive self p c))
      by (unfold rst_high; now rewrite exchange_keeps_rst).
    destruct (IH (drive self p c) F' Hp') as [IH1 IH2].
    split; [|exact IH2].
    cbn [steps]. constructor; [split; assumption | exact IH1].
Qed.

Lemma exchange_bit_cell b : Forall (exchange_call self) (bit_cell self b).
Proof.
  unfold bit_cell.
  repeat (apply Forall_cons || apply Forall_nil); cbn; auto.
Qed.

Lemma exchange_write_byte v :
  Forall (exchange_call self) (write_byte_calls self v).
Proof.
  unfold write_byte_calls. constructor; [reflexivity|].
  induction (bits_lsb_first 8 v) as [|b bits IH]; [constructor|].
  cbn [flat_map]. apply Forall_app. split; [apply exchange_bit_cell | exact IH].
Qed.

Lemma exchange_write_bytes bytes :
  Forall (exchange_call self) (write_bytes_calls self bytes).
Proof.
  induction bytes as [|b bytes IH]; [constructor|].
  cbn [write_bytes_calls flat_map]. apply Forall_app.
  split; [apply exchange_write_byte | exact IH].
Qed.

Lemma exchange_read_byte : Forall (exchange_call self) (read_byte_calls self).
Proof.
  unfold read_byte_calls, sample_cell. cbn [repeat List.concat app].
  repeat (apply Forall_cons || apply Forall_nil); cbn; auto.
Qed.

Lemma exchange_read_bytes n :
  Forall (exchange_call self) (read_bytes_calls self n).
Proof.
  induction n as [|n IH]; [constructor|].
  cbn [read_bytes_calls repeat List.concat]. apply Forall_app.
  split; [apply exchange_read_byte | exact IH].
Qed.

(** *** Where the clock moves *)

(** The first rising edge of a written byte. *)
Lemma write_byte_has_edge p v rest :
  clk_level p = Some LOW ->
  Exists (fun s => clock_edge self s = true)
    (steps self p (write_byte_calls self v ++ rest)).
Proof.
  intros Hp. unfold write_byte_calls. cbn [bits_lsb_first flat_map bit_cell app].
  cbn [steps].
  do 4 apply Exists_cons_tl. apply Exists_cons_hd.
  unfold clock_edge. cbn [fst snd drive clk_level].
  unfold level_after_setup, mem. cbn [existsb].
  rewrite eqb_io_clk, Z.eqb_refl. reflexivity.
Qed.

Lemma start_has_no_edge p :
  clk_level p = Some LOW ->
  Forall (fun s => clock_edge self s = false) (steps self p (start_calls self))
  /\ clk_level (replay self p (start_calls self)) = Some LOW
  /\ rst_high (replay self p (start_calls self)).
Proof.
  intros Hp. unfold start_calls, rst_high, replay. cbn [steps fold_left].
  cbn [drive clk_level rst_level].
  rewrite !Z.eqb_refl, eqb_rst_clk. repeat split.
  constructor; [|constructor; [|constructor]];
    unfold clock_edge; cbn [fst snd drive clk_level].
  - rewrite Z.eqb_refl, Hp. reflexivity.
  - rewrite eqb_rst_clk. reflexivity.
Qed.

(** *** A framed exchange *)

(** Reset is dropped by the last call only, after the data pin has been
    set to input, whatever the pins were before. *)
Lemma reset_dropped_in_input_mode q body :
  Forall (exchange_call self) body ->
  Forall (fun s => snd s = output (_rst_pin self) LOW ->
                   io_mode (fst s) = Some IN)
    (steps self q (framed self body)).
Proof.
  intros Hbody.
  set (release := [setup [_io_pin self] IN None; output (_clk_pin self) LOW]).
  assert (Hsplit : framed self body
                   = start_calls self ++ (body ++ release)
                     ++ [output (_rst_pin self) LOW]).
  { unfold framed, end_calls, release. rewrite <- !app_assoc. reflexivity. }
  assert (Hio : forall q', io_mode (replay self q' (body ++ release)) = Some IN).
  { intros q'. rewrite replay_app. unfold release, replay at 1.
    cbn [fold_left]. cbn [drive io_mode]. unfold mem. cbn [existsb].
    now rewrite Z.eqb_refl. }
  rewrite Hsplit, steps_app, steps_app.
  apply Forall_app. split; [|apply Forall_app; split].
  - unfold start_calls. cbn [steps].
    apply Forall_cons; [|apply Forall_cons; [|apply Forall_nil]]; cbn [snd].
    + intros [= E]. now apply clk_not_rst in E.
    + intros E. inversion E.
  - apply Forall_impl with (P := fun s => exchange_call self (snd s)).
    + intros s Hs E. now apply exchange_is_not_rst_low in Hs.
    + apply steps_calls. apply Forall_app. split; [exact Hbody|].
      unfold release.
      repeat (apply Forall_cons || apply Forall_nil); cbn; auto.
  - cbn [steps]. apply Forall_cons; [|apply Forall_nil].
    cbn [fst snd]. intros _. apply Hio.
Qed.

Lemma framed_framing p0 cmd rest :
  clk_level p0 = Some LOW ->
  Forall (exchange_call self) rest ->
  framing self p0 (framed self (write_byte_calls self cmd ++ rest))
  /\ clk_level
       (replay self p0 (framed self (write_byte_calls self cmd ++ rest)))
     = Some LOW.
Proof.
  intros Hp Hrest.
  set (body := write_byte_calls self cmd ++ rest).
  assert (Hbody : Forall (exchange_call self) body)
    by (apply Forall_app; split; [apply exchange_write_byte | exact Hrest]).
  destruct (start_has_no_edge p0 Hp) as [S1 [S2 S3]].
  set (p1 := replay self p0 (start_calls self)) in *.
  set (release := [setup [_io_pin self] IN None; output (_clk_pin self) LOW]).
  assert (Hrel : Forall (exchange_call self) release)
    by (unfold release;
        repeat (apply Forall_cons || apply Forall_nil); cbn; auto).
  assert (Hmid : Forall (exchange_call self) (body ++ release))
    by (apply Forall_app; split; assumption).
  destruct (exchange_rst_high (body ++ release) p1 Hmid S3) as [M1 M2].
  assert (Hsplit : framed self body
                   = start_calls self ++ (body ++ release)
                     ++ [output (_rst_pin self) LOW]).
  { unfold framed, end_calls, release. rewrite <- !app_assoc. reflexivity. }
  assert (Hio : io_mode (replay self p1 (body ++ release)) = Some IN).
  { rewrite replay_app. unfold release, replay at 1. cbn [fold_left].
    cbn [drive io_mode]. unfold mem. cbn [existsb].
    now rewrite Z.eqb_refl. }
  split.
  - exists (start_calls self), (body ++ release), [output (_rst_pin self) LOW].
    split; [exact Hsplit|].
    split; [unfold start_calls; cbn; auto|].
    split; [exact S1|].
    split.
    { fold p1. rewrite steps_app. apply Exists_app. left.
      apply write_byte_has_edge. exact S2. }
    split; [exact M1|].
    split.
    { cbn [steps]. constructor; [|constructor].
      unfold clock_edge. cbn [fst snd drive clk_level].
      rewrite eqb_rst_clk.
      destruct (clk_level (replay self p0 (start_calls self ++ body ++ release)))
        as [x|]; cbn; [now rewrite Z.eqb_refl | reflexivity]. }
    split; [now apply reset_dropped_in_input_mode|].
    split; [now left|].
    intros m. now apply reset_dropped_in_input_mode.
  - rewrite Hsplit. unfold replay, release. rewrite !fold_left_app.
    cbn [fold_left]. cbn [drive clk_level].
    rewrite eqb_rst_clk, Z.eqb_refl. reflexivity.
Qed.

End Framing.

(** Every transaction leaves the pins idle: clock low, reset low, data pin
    in input mode. *)
Lemma framed_ends_idle (self : DS1302) (p : pins) (body : list call) :
  replay self p (framed self body) = idle_pins.
Proof.
  unfold framed, end_calls, replay. rewrite !fold_left_app.
  cbn [fold_left]. cbn [drive clk_level rst_level io_mode].
  unfold mem. cbn [existsb]. rewrite !Z.eqb_refl. cbn [orb].
  destruct (_rst_pin self =? _clk_pin self); reflexivity.
Qed.

(** X15.  So do [__init__] and the four operations, from any pin state and
    on any data line: each of them leaves the clock low, reset low (the
    chip deselected) and the data pin in input mode, also when [read_ram]
    raises. *)
Lemma driver_leaves_pins_idle (chip : list call -> Z) (self : DS1302)
    (p : pins) (h : list call) :
  (forall mode, replay self p (calls_of (__init__ self mode) h) = idle_pins)
  /\ replay self p (calls_of (read_datetime chip self) h) = idle_pins
  /\ (forall dt, replay self p (calls_of (write_datetime self dt) h) = idle_pins)
  /\ replay self p (calls_of (read_ram chip self) h) = idle_pins
  /\ (forall ram, replay self p (calls_of (write_ram self ram) h) = idle_pins).
Proof.
  split; [|split; [|split; [|split]]].
  - intros mode. rewrite (runs_calls_of _ _ _ _ (init_run self mode h)).
    rewrite !replay_app. apply framed_ends_idle.
  - rewrite (calls_of_snd _ _ _ (read_datetime_calls chip self h)).
    apply framed_ends_idle.
  - intros dt. rewrite (runs_calls_of _ _ _ _ (write_datetime_run self dt h)).
    apply framed_ends_idle.
  - destruct (read_ram_calls chip self h) as [n [_ ->]].
    apply framed_ends_idle.
  - intros ram. rewrite (runs_calls_of _ _ _ _ (write_ram_run self ram h)).
    apply framed_ends_idle.
Qed.

(** A transaction that is never closed is not framed. *)
Example unclosed_transaction_is_not_framed :
  ~ framing default_pins idle_pins
      (start_calls default_pins ++ write_byte_calls default_pins 0xFE).
Proof.
  intros [pre [mid [post [Ht [_ [_ [_ [_ [_ [_ [Hlow _]]]]]]]]]]].
  assert (Hin : In (output (_rst_pin default_pins) LOW)
                  (start_calls default_pins
                   ++ write_byte_calls default_pins 0xFE)).
  { rewrite Ht. apply in_or_app. right. apply in_or_app. now right. }
  vm_compute in Hin.
  repeat (destruct Hin as [Hin | Hin]; [discriminate Hin|]). exact Hin.
Qed.

(** Nor is one that drops reset before it releases the data pin. *)
Example reset_dropped_too_early_is_not_framed :
  ~ framing default_pins idle_pins
      ((start_calls default_pins ++ write_byte_calls default_pins 0xFE)
       ++ [output (_clk_pin default_pins) LOW;
           output (_rst_pin default_pins) LOW;
           setup [_io_pin default_pins] IN None]).
Proof.
  intros [pre [mid [post [_ [_ [_ [_ [_ [_ [Hmode _]]]]]]]]]].
  rewrite steps_app in Hmode. apply Forall_app in Hmode as [_ Hmode].
  cbn [steps] in Hmode.
  inversion Hmode as [|? ? _ Hmode']; subst.
  inversion Hmode' as [|? ? Hrst _]; subst.
  specialize (Hrst eq_refl). vm_compute in Hrst. discriminate.
Qed.

(** What framing gives at a clock edge, wherever it is in the sequence:
    reset is high when the edge is issued and still high after it. *)
Lemma framing_reset_high_at_edges (self : DS1302) (p0 : pins)
    (t before after : list call) (c : call) :
  framing self p0 t ->
  t = before ++ c :: after ->
  clock_edge self (replay self p0 before, c) = true ->
  rst_high (replay self p0 before)
  /\ rst_high (drive self (replay self p0 before) c).
Proof.
  intros [pre [mid [post [Ht [_ [Hpre [_ [Hmid [Hpost _]]]]]]]]] Hsplit Hedge.
  assert (Hin : In (replay self p0 before, c) (steps self p0 t)).
  { rewrite Hsplit, steps_app. apply in_or_app. right. cbn [steps]. now left. }
  rewrite Ht, !steps_app, <- replay_app in Hin.
  rewrite Forall_forall in Hpre, Hmid, Hpost.
  apply in_app_or in Hin as [Hin | Hin];
    [apply Hpre in Hin; congruence|].
  apply in_app_or in Hin as [Hin | Hin];
    [|apply Hpost in Hin; congruence].
  apply Hmid in Hin. exact Hin.
Qed.

(** C3: with three distinct pins and the clock low when the operation
    starts (as [__init__] and every operation leave it), the calls of each
    of [read_datetime], [write_datetime], [read_ram] and [write_ram] are
    framed: reset is driven high before the first clock edge, is high
    before and after every call from there to the last clock edge, and is
    driven low after the last clock edge, by a call issued when the data
    pin is in input mode; the switch to input is a call of the operation
    itself, whatever mode the pin was in before.  For [read_ram] this holds
    on any data line, also when a byte out of range cuts the burst
    short. *)
Theorem C3_transaction_framing (chip : list call -> Z) (self : DS1302)
    (h : list call) (p0 : pins) (dt : datetime) (ram : list Z) :
  NoDup [_clk_pin self; _io_pin self; _rst_pin self] ->
  clk_level p0 = Some LOW ->
  framing self p0 (calls_of (read_datetime chip self) h)
  /\ framing self p0 (calls_of (write_datetime self dt) h)
  /\ framing self p0 (calls_of (read_ram chip self) h)
  /\ framing self p0 (calls_of (write_ram self ram) h).
Proof.
  intros D Hp. split; [|split; [|split]].
  - rewrite (calls_of_snd _ _ _ (read_datetime_calls chip self h)).
    apply framed_framing; [exact D | exact Hp |].
    now apply exchange_read_bytes.
  - rewrite (runs_calls_of _ _ _ _ (write_datetime_run self dt h)).
    rewrite write_bytes_calls_cons.
    apply framed_framing; [exact D | exact Hp |].
    now apply exchange_write_bytes.
  - destruct (read_ram_calls chip self h) as [n [_ ->]].
    apply framed_framing; [exact D | exact Hp |].
    now apply exchange_read_bytes.
  - rewrite (runs_calls_of _ _ _ _ (write_ram_run self ram h)).
    apply framed_framing; [exact D | exact Hp |].
    now apply exchange_write_bytes.
Qed.

Lemma C3_transaction_framing_witness :
  framing default_pins idle_pins
    (calls_of (read_datetime (fun _ => 0) default_pins) [])
  /\ framing default_pins idle_pins
       (calls_of (write_datetime default_pins monday_2024) [])
  /\ framing default_pins idle_pins
       (calls_of (read_ram (fun _ => 0) default_pins) [])
  /\ framing default_pins idle_pins
       (calls_of (write_ram default_pins [1; 2; 3]) []).
Proof.
  apply (C3_transaction_framing (fun _ => 0) default_pins [] idle_pins
           monday_2024 [1; 2; 3]).
  - repeat constructor; cbn; intuition discriminate.
  - reflexivity.
Defined.

(* ================================================================== *)
(** * Further properties of the driver *)

(** ** The decoder on well-formed frames *)

Section DecodingFacts.

Import Text.

Lemma bcd_decode_bcd v :
  0 <= v <= 99 -> bcd_digits_ok (bcd v) = true /\ bcd_decode (bcd v) = v.
Proof.
  intros Hv.
  pose proof (forall_range
                (fun v => bcd_digits_ok (bcd v) && (bcd_decode (bcd v) =? v))
                100 ltac:(vm_compute; reflexivity) v ltac:(lia)) as E.
  cbn beta in E. apply andb_true_iff in E as [E1 E2].
  apply Z.eqb_eq in E2. auto.
Qed.

Lemma field_ok_bcd lo hi v :
  0 <= lo -> hi <= 99 -> lo <= v <= hi -> field_ok lo hi (bcd v) = true.
Proof.
  intros Hlo Hhi Hv. unfold field_ok.
  destruct (bcd_decode_bcd v ltac:(lia)) as [-> ->].
  cbn [andb]. apply andb_true_iff. split; apply Z.leb_le; lia.
Qed.

Lemma field_ok_range lo hi b :
  field_ok lo hi b = true -> lo <= bcd_decode b <= hi.
Proof.
  unfold field_ok. rewrite !andb_true_iff, !Z.leb_le. tauto.
Qed.

(** A byte that is a BCD number of the field's range is read as that
    number. *)
Lemma token_value_reads alts lo hi :
  forallb
    (fun b => negb (field_ok lo hi b)
              || match token_value alts b with
                 | Some v => v =? bcd_decode b
                 | None => false
                 end)
    (range 256) = true ->
  forall b, is_byte b -> field_ok lo hi b = true ->
            token_value alts b = Some (bcd_decode b).
Proof.
  intros H b Hb Hf. pose proof (byte_cases _ H b Hb) as E. cbn beta in E.
  rewrite Hf in E. cbn [negb orb] in E.
  destruct (token_value alts b); [|discriminate].
  apply Z.eqb_eq in E. now subst.
Qed.

Lemma re_S_reads b :
  is_byte b -> field_ok 0 59 b = true ->
  token_value re_S b = Some (bcd_decode b).
Proof. apply token_value_reads. vm_compute. reflexivity. Qed.

Lemma re_M_reads b :
  is_byte b -> field_ok 0 59 b = true ->
  token_value re_M b = Some (bcd_decode b).
Proof. apply token_value_reads. vm_compute. reflexivity. Qed.

Lemma re_H_reads b :
  is_byte b -> field_ok 0 23 b = true ->
  token_value re_H b = Some (bcd_decode b).
Proof. apply token_value_reads. vm_compute. reflexivity. Qed.

Lemma re_d_reads b :
  is_byte b -> field_ok 1 31 b = true ->
  token_value re_d b = Some (bcd_decode b).
Proof. apply token_value_reads. vm_compute. reflexivity. Qed.

Lemma re_m_reads b :
  is_byte b -> field_ok 1 12 b = true ->
  token_value re_m b = Some (bcd_decode b).
Proof. apply token_value_reads. vm_compute. reflexivity. Qed.

Lemma re_u_reads b :
  is_byte b -> field_ok 1 7 b = true ->
  token_value re_u b = Some (bcd_decode b).
Proof. apply token_value_reads. vm_compute. reflexivity. Qed.

Lemma re_y_reads b :
  is_byte b -> field_ok 10 99 b = true ->
  token_value re_y b = Some (bcd_decode b).
Proof. apply token_value_reads. vm_compute. reflexivity. Qed.

Lemma year_field_from_0x10 b :
  is_byte b -> field_ok 0 99 b = true -> 0x10 <= b ->
  field_ok 10 99 b = true.
Proof.
  intros Hb Hf Hy.
  pose proof (byte_cases
                (fun b => negb (field_ok 0 99 b) || (b <? 0x10)
                          || field_ok 10 99 b)
                ltac:(vm_compute; reflexivity) b Hb) as E.
  cbn beta in E. rewrite Hf in E. cbn [negb orb] in E.
  destruct (Z.ltb_spec b 0x10); [lia | exact E].
Qed.

(** X1.  A frame of seven bytes that are BCD numbers within the ranges of
    their fields, with a year byte of at least 0x10, decodes to exactly the
    calendar value its digits spell, with the year 1969-1999 for 69-99 and
    2010-2068 for 10-68, no microseconds and no time zone, provided the day
    exists in that month of that year; if it does not (30 February, 31
    April, 29 February of a common year) the decoder raises
    [ValueError]. *)
Theorem decode_well_formed_frame (s mi h d mo u y : Z) :
  Forall is_byte [s; mi; h; d; mo; u; y] ->
  frame_ok [s; mi; h; d; mo; u; y] = true ->
  0x10 <= y ->
  datetime_of_regs [s; mi; h; d; mo; u; y]
  = if bcd_decode d
       <=? _days_in_month (pivot (bcd_decode y)) (bcd_decode mo)
    then Ok {| year := pivot (bcd_decode y);
               month := bcd_decode mo;
               day := bcd_decode d;
               hour := bcd_decode h;
               minute := bcd_decode mi;
               second := bcd_decode s;
               microsecond := 0;
               tzinfo := None |}
    else Raise ValueError.
Proof.
  intros F Hf Hy.
  rewrite datetime_of_regs_bytes by exact F.
  repeat match goal with
         | H : Forall _ (_ :: _) |- _ => inversion H; subst; clear H
         end.
  cbn [frame_ok] in Hf. rewrite !andb_true_iff in Hf.
  destruct Hf as [[[[[[Fs Fmi] Fh] Fd] Fmo] Fu] Fy].
  pose proof (year_field_from_0x10 y ltac:(assumption) Fy Hy) as Fy'.
  rewrite re_S_reads, re_M_reads, re_H_reads, re_d_reads, re_m_reads,
    re_u_reads, re_y_reads by assumption.
  apply field_ok_range in Fs, Fmi, Fh, Fd, Fmo, Fy'.
  assert (Hp : 1969 <= pivot (bcd_decode y) <= 2068)
    by (unfold pivot; destruct (Z.leb_spec (bcd_decode y) 68); lia).
  assert (D : _check_date_fields (pivot (bcd_decode y)) (bcd_decode mo)
                (bcd_decode d)
              = (bcd_decode d
                 <=? _days_in_month (pivot (bcd_decode y)) (bcd_decode mo))).
  { unfold _check_date_fields, MINYEAR, MAXYEAR.
    repeat match goal with
           | |- context [?a <=? ?b] =>
               lazymatch b with
               | _days_in_month _ _ => fail
               | _ => destruct (Z.leb_spec a b); [|lia]
               end
           end.
    reflexivity. }
  rewrite D.
  destruct (bcd_decode d
            <=? _days_in_month (pivot (bcd_decode y)) (bcd_decode mo)) eqn:E;
    [|reflexivity].
  unfold new. rewrite D, ?E. cbn [andb].
  unfold _check_time_fields.
  repeat match goal with
         | |- context [?a <=? ?b] => destruct (Z.leb_spec a b); [|lia]
         end.
  reflexivity.
Qed.

Lemma decode_well_formed_frame_witness :
  datetime_of_regs monday_2024_frame = Ok monday_2024.
Proof.
  apply (decode_well_formed_frame 0x45 0x30 0x10 0x15 0x01 0x01 0x24).
  - repeat constructor; unfold is_byte; lia.
  - reflexivity.
  - lia.
Defined.

(** X2.  The weekday register only has to hold 1-7: the calendar value
    returned does not depend on which of these it holds, so a weekday that
    contradicts the date is accepted without notice. *)
Theorem weekday_register_is_ignored (s mi h d mo u u' y : Z) :
  Forall is_byte [s; mi; h; d; mo; y] ->
  1 <= u <= 7 ->
  1 <= u' <= 7 ->
  datetime_of_regs [s; mi; h; d; mo; u; y]
  = datetime_of_regs [s; mi; h; d; mo; u'; y].
Proof.
  intros F Hu Hu'.
  repeat match goal with
         | H : Forall _ (_ :: _) |- _ => inversion H; subst; clear H
         end.
  assert (B : forall w, 1 <= w <= 7 -> is_byte w /\ field_ok 1 7 w = true).
  { intros w Hw. split; [unfold is_byte; lia|].
    replace w with (bcd w); [apply field_ok_bcd; lia|].
    unfold bcd. rewrite Z.div_small, Z.mod_small by lia. lia. }
  destruct (B u Hu) as [Bu Fu]. destruct (B u' Hu') as [Bu' Fu'].
  rewrite !datetime_of_regs_bytes
    by (repeat (apply Forall_cons || apply Forall_nil); assumption).
  rewrite (re_u_reads u Bu Fu), (re_u_reads u' Bu' Fu').
  reflexivity.
Qed.

Lemma weekday_register_is_ignored_witness :
  datetime_of_regs [0x45; 0x30; 0x10; 0x15; 0x01; 0x01; 0x24]
  = datetime_of_regs [0x45; 0x30; 0x10; 0x15; 0x01; 0x05; 0x24].
Proof.
  apply (weekday_register_is_ignored 0x45 0x30 0x10 0x15 0x01 0x01 0x05 0x24).
  - repeat constructor; unfold is_byte; lia.
  - lia.
  - lia.
Defined.

Lemma wire_frame_ok (dt : datetime) :
  valid dt = true ->
  Forall is_byte (map bcd (wire_fields dt))
  /\ frame_ok (map bcd (wire_fields dt)) = true.
Proof.
  intros Hv. pose proof (valid_ranges dt Hv) as R.
  pose proof (isoweekday_range dt) as W.
  pose proof (Z.mod_pos_bound (year dt) 100 ltac:(lia)) as Y.
  unfold wire_fields. cbn [map]. split.
  - repeat (apply Forall_cons || apply Forall_nil); apply bcd_is_byte; lia.
  - cbn [frame_ok]. rewrite !field_ok_bcd by lia. reflexivity.
Qed.

(** X3.  The frame [write_datetime] builds for a [datetime] object is
    always well formed: seven bytes, each a BCD number within the range of
    its field, so a chip that stores them holds a valid time. *)
Theorem encoded_frame_is_well_formed (dt : datetime) :
  valid dt = true ->
  regs_of_datetime dt = Ok (map bcd (wire_fields dt) ++ [0; 0])
  /\ Forall is_byte (map bcd (wire_fields dt))
  /\ frame_ok (map bcd (wire_fields dt)) = true.
Proof.
  intros Hv. split; [now apply regs_of_datetime_valid | now apply wire_frame_ok].
Qed.

Lemma encoded_frame_is_well_formed_witness :
  regs_of_datetime monday_2024 = Ok (map bcd (wire_fields monday_2024) ++ [0; 0])
  /\ Forall is_byte (map bcd (wire_fields monday_2024))
  /\ frame_ok (map bcd (wire_fields monday_2024)) = true.
Proof.
  apply (encoded_frame_is_well_formed monday_2024). reflexivity.
Defined.




End DecodingFacts.

(** ** Bytes on the wire *)

(** X5.  On a data line that reads as 0 or 1, [_read_byte] returns
    normally with a value in 0..0xFF, as its docstring says, after issuing
    the same 41 calls whatever it samples. *)
Theorem read_byte_is_byte (chip : list call -> Z) (self : DS1302)
    (h : list call) :
  bit_chip chip ->
  exists v,
    _read_byte chip self h = (Ok v, h ++ read_byte_calls self)
    /\ is_byte v.
Proof. apply read_byte_in_range. Qed.

Lemma read_byte_is_byte_witness :
  exists v,
    _read_byte (fun _ => 1) default_pins []
    = (Ok v, [] ++ read_byte_calls default_pins)
    /\ is_byte v.
Proof.
  apply (read_byte_is_byte (fun _ => 1) default_pins []).
  intros h. right. reflexivity.
Defined.

Lemma bits_lsb_first_low_byte v :
  bits_lsb_first 8 (v mod 256) = bits_lsb_first 8 v.
Proof.
  pose proof (bits_lsb_first_testbit 8 0 v) as A.
  pose proof (bits_lsb_first_testbit 8 0 (v mod 256)) as B.
  rewrite Z.shiftr_0_r in A, B. rewrite A, B.
  apply map_ext_in. intros k Hk.
  apply in_map_iff in Hk as [n [<- Hn]]. apply in_seq in Hn.
  change 256 with (2 ^ 8). rewrite Z.mod_pow2_bits_low by lia. reflexivity.
Qed.

(** X6.  [_write_byte] sends the low eight bits of its argument and
    nothing else: any integer, negative or above 0xFF, is sent as its
    residue modulo 256, without an exception. *)
Theorem write_byte_sends_low_eight_bits (self : DS1302) (v : Z)
    (h : list call) :
  _write_byte self v h = _write_byte self (v mod 256) h
  /\ fst (_write_byte self v h) = Ok tt.
Proof.
  pose proof (runs_write_byte self v h) as A.
  pose proof (runs_write_byte self (v mod 256) h) as B.
  unfold runs in A, B. rewrite A, B. split; [|reflexivity].
  unfold write_byte_calls. now rewrite bits_lsb_first_low_byte.
Qed.


(** ** Burst reads *)

Lemma reads_sample_cell self : reads (sample_cell self) = 1%nat.
Proof. reflexivity. Qed.

Lemma reads_read_byte self : reads (read_byte_calls self) = 8%nat.
Proof. reflexivity. Qed.

(** A chip that shifts out [bytes] answers [n] samples with the next [n]
    bits it holds. *)
Lemma shift_out_samples self bytes (n : nat) : forall hist pending,
  skipn (reads hist) (flat_map (bits_lsb_first 8) bytes) = pending ->
  (n <= List.length pending)%nat ->
  samples (shift_out bytes) hist (List.concat (repeat (sample_cell self) n))
  = firstn n pending.
Proof.
  induction n as [|n IH]; intros hist pending Hp Hn; [reflexivity|].
  cbn [repeat List.concat]. rewrite samples_app.
  destruct pending as [|x pending]; [cbn in Hn; lia|].
  assert (Hcell : samples (shift_out bytes) hist (sample_cell self) = [x]).
  { unfold sample_cell. cbn [samples]. f_equal.
    rewrite <- !app_assoc. cbn [app]. unfold shift_out.
    rewrite reads_app.
    replace (reads [output (_clk_pin self) HIGH; sleep CLK_DELAY;
                    output (_clk_pin self) LOW; sleep CLK_DELAY])
      with 0%nat by reflexivity.
    rewrite Nat.add_0_r, nth_hd_skipn, Hp. reflexivity. }
  rewrite Hcell. cbn [app firstn]. f_equal.
  apply IH; [|cbn in Hn; lia].
  rewrite reads_app, reads_sample_cell, Nat.add_1_r, skipn_S_tl, Hp.
  reflexivity.
Qed.

Lemma bits_lsb_first_length n : forall v, List.length (bits_lsb_first n v) = n.
Proof.
  induction n as [|n IH]; intros v; cbn [bits_lsb_first List.length];
    [reflexivity | now rewrite IH].
Qed.

Lemma firstn_app_exact {A} (l r : list A) n :
  n = List.length l -> firstn n (l ++ r) = l.
Proof.
  intros ->. rewrite firstn_app, Nat.sub_diag, firstn_all.
  cbn [firstn]. apply app_nil_r.
Qed.

Lemma skipn_app_exact {A} (l r : list A) n :
  n = List.length l -> skipn n (l ++ r) = r.
Proof.
  intros ->. rewrite skipn_app, Nat.sub_diag, skipn_all. reflexivity.
Qed.

(** One [_read_byte] on such a chip takes the next byte. *)
Lemma read_byte_shift_out self bytes b rest hist :
  skipn (reads hist) (flat_map (bits_lsb_first 8) bytes)
  = flat_map (bits_lsb_first 8) (b :: rest) ->
  is_byte b ->
  runs (_read_byte (shift_out bytes) self) hist b (read_byte_calls self)
  /\ skipn (reads (hist ++ read_byte_calls self))
       (flat_map (bits_lsb_first 8) bytes)
     = flat_map (bits_lsb_first 8) rest.
Proof.
  intros Hp Hb.
  assert (S : samples (shift_out bytes) hist (read_byte_calls self)
              = bits_lsb_first 8 b).
  { unfold read_byte_calls.
    change (setup [_io_pin self] IN None
              :: List.concat (repeat (sample_cell self) 8))
      with ([setup [_io_pin self] IN None]
              ++ List.concat (repeat (sample_cell self) 8)).
    rewrite samples_app. cbn [samples app].
    rewrite (shift_out_samples self bytes 8 _
               (flat_map (bits_lsb_first 8) (b :: rest))).
    - cbn [flat_map]. apply firstn_app_exact.
      now rewrite bits_lsb_first_length.
    - rewrite reads_app. cbn [reads filter List.length].
      rewrite Nat.add_0_r. exact Hp.
    - cbn [flat_map]. rewrite length_app, bits_lsb_first_length. lia. }
  split.
  - pose proof (read_byte_value_bits (shift_out bytes) self hist) as R.
    rewrite S in R. specialize (R (bits_lsb_first_bits 8 b)).
    rewrite from_bits_of_byte in R by exact Hb. exact R.
  - rewrite reads_app, reads_read_byte, Nat.add_comm, <- skipn_skipn, Hp.
    cbn [flat_map]. apply skipn_app_exact.
    now rewrite bits_lsb_first_length.
Qed.

(** A burst of reads takes the next bytes in order. *)
Lemma read_bytes_shift_out {A} self bytes (xs : list A) :
  forall acc hist rest,
    skipn (reads hist) (flat_map (bits_lsb_first 8) bytes)
    = flat_map (bits_lsb_first 8) rest ->
    Forall is_byte rest ->
    (List.length xs <= List.length rest)%nat ->
    runs
      (for_ xs
         (fun _ regs => b <- _read_byte (shift_out bytes) self ;;
                        ret (regs ++ [b]))
         acc)
      hist (acc ++ firstn (List.length xs) rest)
      (read_bytes_calls self (List.length xs)).
Proof.
  induction xs as [|x xs IH]; intros acc hist rest Hp F Hl.
  - cbn. rewrite app_nil_r. apply runs_ret.
  - destruct rest as [|b rest]; [cbn in Hl; lia|].
    inversion F as [|? ? Hb F']; subst.
    destruct (read_byte_shift_out self bytes b rest hist Hp Hb) as [R Hp'].
    cbn [for_ List.length read_bytes_calls repeat List.concat firstn].
    eapply runs_bind.
    + rewrite <- (app_nil_r (read_byte_calls self)).
      eapply runs_bind; [exact R | apply runs_ret].
    + replace (acc ++ b :: firstn (List.length xs) rest)
        with ((acc ++ [b]) ++ firstn (List.length xs) rest)
        by now rewrite <- app_assoc.
      apply IH; [exact Hp' | exact F' | cbn in Hl; lia].
Qed.

Lemma reads_framed_prefix self h cmd :
  reads ((h ++ start_calls self) ++ write_byte_calls self cmd) = reads h.
Proof.
  rewrite !reads_app, reads_write_byte. cbn. lia.
Qed.

(** X7.  [read_ram] returns the 31 bytes the chip shifts out, in the order
    they arrive, each assembled lowest bit first. *)
Theorem read_ram_returns_shifted_bytes (self : DS1302) (block : list Z)
    (h : list call) :
  List.length block = 31%nat ->
  Forall is_byte block ->
  reads h = 0%nat ->
  fst (read_ram (shift_out block) self h) = Ok block.
Proof.
  intros L F Hr.
  eapply runs_fst. unfold read_ram. apply runs_transaction.
  eapply runs_bind; [apply runs_write_byte|].
  pose proof (read_bytes_shift_out self block (range RAM_SIZE) []
                ((h ++ start_calls self)
                   ++ write_byte_calls self RAM_BURST_READ) block) as R.
  rewrite reads_framed_prefix, Hr in R. cbn [skipn] in R.
  specialize (R eq_refl F).
  change (List.length (range RAM_SIZE)) with 31%nat in R.
  rewrite firstn_all2 in R by lia.
  apply (bytearray_loop_in_range (shift_out block) self (range RAM_SIZE) []
           _ block _ (R ltac:(lia)) F).
Qed.

Lemma read_ram_returns_shifted_bytes_witness :
  fst (read_ram (shift_out (repeat 0xA5 31)) default_pins [])
  = Ok (repeat 0xA5 31).
Proof.
  apply (read_ram_returns_shifted_bytes default_pins (repeat 0xA5 31) []).
  - reflexivity.
  - apply Forall_forall. intros x Hx. apply repeat_spec in Hx. subst.
    unfold is_byte. lia.
  - reflexivity.
Defined.

(** X8.  [read_datetime] decodes exactly the seven bytes the chip shifts
    out: its result is the decoding expression applied to them. *)
Theorem read_datetime_decodes_shifted_frame (self : DS1302)
    (frame : list Z) (h : list call) :
  List.length frame = 7%nat ->
  Forall is_byte frame ->
  reads h = 0%nat ->
  fst (read_datetime (shift_out frame) self h) = datetime_of_regs frame.
Proof.
  intros L F Hr.
  assert (R : runs (read_datetime_regs (shift_out frame) self) h frame
                (framed self
                   (write_byte_calls self REG_BURST_READ
                    ++ read_bytes_calls self 7))).
  { unfold read_datetime_regs. apply runs_transaction.
    eapply runs_bind; [apply runs_write_byte|].
    pose proof (read_bytes_shift_out self frame (range REG_SIZE) []
                  ((h ++ start_calls self)
                     ++ write_byte_calls self REG_BURST_READ) frame) as R.
    rewrite reads_framed_prefix, Hr in R. cbn [skipn] in R.
    specialize (R eq_refl F).
    change (List.length (range REG_SIZE)) with 7%nat in R.
    rewrite firstn_all2 in R by lia. apply R. lia. }
  unfold read_datetime, bind. unfold runs in R. rewrite R. reflexivity.
Qed.

Lemma read_datetime_decodes_shifted_frame_witness :
  fst (read_datetime (shift_out monday_2024_frame) default_pins [])
  = datetime_of_regs monday_2024_frame.
Proof.
  apply (read_datetime_decodes_shifted_frame default_pins monday_2024_frame []).
  - reflexivity.
  - repeat constructor; unfold is_byte; lia.
  - reflexivity.
Defined.

(** X9.  On a data line that reads as 0 or 1, [read_ram] always returns
    normally, with exactly 31 values, each in 0..0xFF. *)
Theorem read_ram_returns_31_bytes (chip : list call -> Z) (self : DS1302)
    (h : list call) :
  bit_chip chip ->
  exists ram,
    fst (read_ram chip self h) = Ok ram
    /\ List.length ram = 31%nat
    /\ Forall is_byte ram.
Proof.
  intros Hc.
  destruct (read_bytes_are_bytes chip self (range RAM_SIZE) Hc []
              ((h ++ start_calls self)
                 ++ write_byte_calls self RAM_BURST_READ))
    as [ram [Hr [Hl Hb]]].
  exists ram. split; [|split; [exact Hl | exact Hb]].
  eapply runs_fst. unfold read_ram. apply runs_transaction.
  eapply runs_bind; [apply runs_write_byte|].
  apply (bytearray_loop_in_range chip self (range RAM_SIZE) [] _ ram _ Hr Hb).
Qed.

Lemma read_ram_returns_31_bytes_witness :
  exists ram,
    fst (read_ram (fun _ => 1) default_pins []) = Ok ram
    /\ List.length ram = 31%nat
    /\ Forall is_byte ram.
Proof.
  apply (read_ram_returns_31_bytes (fun _ => 1) default_pins []).
  intros h. right. reflexivity.
Defined.

(** X16.  On any data line [read_ram] performs one complete transaction:
    the command byte 0xFF, then [n] whole bytes read, between 1 and 31, then
    the closing calls.  Either it returns 31 values, all in 0..0xFF, or it
    raises [ValueError], which takes a data line that reads as something
    else than 0 or 1: [bytearray.append] refuses the byte, no further byte
    is read, and the transaction is still closed. *)
Theorem read_ram_on_any_data_line (chip : list call -> Z) (self : DS1302)
    (h : list call) :
  exists n r,
    read_ram chip self h
    = (r, h ++ framed self
                 (write_byte_calls self RAM_BURST_READ
                  ++ read_bytes_calls self n))
    /\ (1 <= n <= 31)%nat
    /\ match r with
       | Ok ram =>
           n = 31%nat /\ List.length ram = 31%nat /\ Forall is_byte ram
       | Raise e => e = ValueError /\ ~ bit_chip chip
       end.
Proof. apply read_ram_outcome. Qed.

(** A data line that always reads as 2: the first byte is 510, and
    [read_ram] raises after 87 calls. *)
Example read_ram_refuses_510 :
  read_ram (fun _ => 2) default_pins []
  = (Raise ValueError,
     framed default_pins
       (write_byte_calls default_pins RAM_BURST_READ
        ++ read_bytes_calls default_pins 1))
  /\ List.length (calls_of (read_ram (fun _ => 2) default_pins) []) = 87%nat.
Proof. split; vm_compute; reflexivity. Qed.

(** ** The data pin during an exchange *)

Section DataPin.

Variable self : DS1302.
Hypothesis distinct : NoDup [_clk_pin self; _io_pin self; _rst_pin self].

Lemma disciplined_app t1 t2 :
  disciplined self t1 -> disciplined self t2 -> disciplined self (t1 ++ t2).
Proof.
  intros H1 H2 p. rewrite steps_app. apply Forall_app. split; [apply H1|apply H2].
Qed.

Lemma discipline_bit_cells bits : forall p,
  io_mode p = Some OUT ->
  Forall (data_pin_discipline self)
    (steps self p (flat_map (bit_cell self) bits)).
Proof.
  induction bits as [|b bits IH]; intros p Hp; [constructor|].
  cbn [flat_map]. rewrite steps_app. apply Forall_app. split.
  - unfold bit_cell. cbn [steps].
    repeat (apply Forall_cons || apply Forall_nil);
      unfold data_pin_discipline; cbn [fst snd]; try exact I.
    + intros E. now apply (clk_not_io self distinct) in E.
    + intros _. cbn [drive io_mode clk_level].
      rewrite Z.eqb_refl. split; [exact Hp | reflexivity].
    + intros E. now apply (clk_not_io self distinct) in E.
  - apply IH. unfold bit_cell, replay. cbn [fold_left]. exact Hp.
Qed.

Lemma discipline_write_byte v : disciplined self (write_byte_calls self v).
Proof.
  intros p. unfold write_byte_calls. cbn [steps].
  apply Forall_cons; [exact I|].
  apply discipline_bit_cells. cbn [drive io_mode]. unfold mem. cbn [existsb].
  now rewrite Z.eqb_refl.
Qed.

Lemma discipline_sample_cells n : forall p,
  io_mode p = Some IN ->
  Forall (data_pin_discipline self)
    (steps self p (List.concat (repeat (sample_cell self) n))).
Proof.
  induction n as [|n IH]; intros p Hp; [constructor|].
  cbn [repeat List.concat]. rewrite steps_app. apply Forall_app. split.
  - unfold sample_cell. cbn [steps].
    repeat (apply Forall_cons || apply Forall_nil);
      unfold data_pin_discipline; cbn [fst snd]; try exact I.
    + intros E. now apply (clk_not_io self distinct) in E.
    + intros E. now apply (clk_not_io self distinct) in E.
    + cbn [drive io_mode clk_level]. rewrite Z.eqb_refl.
      split; [reflexivity | split; [exact Hp | reflexivity]].
  - apply IH. unfold sample_cell, replay. cbn [fold_left]. exact Hp.
Qed.

Lemma discipline_read_byte : disciplined self (read_byte_calls self).
Proof.
  intros p. unfold read_byte_calls. cbn [steps].
  apply Forall_cons; [exact I|].
  apply discipline_sample_cells. cbn [drive io_mode]. unfold mem. cbn [existsb].
  now rewrite Z.eqb_refl.
Qed.

Lemma discipline_write_bytes bytes : disciplined self (write_bytes_calls self bytes).
Proof.
  induction bytes as [|b bytes IH]; [intros p; constructor|].
  cbn [write_bytes_calls flat_map].
  apply disciplined_app; [apply discipline_write_byte | exact IH].
Qed.

Lemma discipline_read_bytes n : disciplined self (read_bytes_calls self n).
Proof.
  induction n as [|n IH]; [intros p; constructor|].
  cbn [read_bytes_calls repeat List.concat].
  apply disciplined_app; [apply discipline_read_byte | exact IH].
Qed.

Lemma discipline_framed body : disciplined self body -> disciplined self (framed self body).
Proof.
  intros Hb. unfold framed.
  apply disciplined_app; [|apply disciplined_app; [exact Hb|]].
  - intros p. unfold start_calls. cbn [steps].
    repeat (apply Forall_cons || apply Forall_nil);
      unfold data_pin_discipline; cbn [fst snd]; intros E.
    + now apply (clk_not_io self distinct) in E.
    + symmetry in E. now apply (io_not_rst self distinct) in E.
  - intros p. unfold end_calls. cbn [steps].
    repeat (apply Forall_cons || apply Forall_nil);
      unfold data_pin_discipline; cbn [fst snd]; try exact I; intros E.
    + now apply (clk_not_io self distinct) in E.
    + symmetry in E. now apply (io_not_rst self distinct) in E.
Qed.

End DataPin.

(** X10.  With three distinct pins, in [__init__] and in each of the four
    operations, from whatever state the pins are in: every level driven on
    the data pin is driven while the pin is configured as an output and
    the clock is low, and every sample of the data pin is taken while the
    pin is configured as an input and the clock is low. *)
Theorem data_pin_is_used_in_its_direction (chip : list call -> Z)
    (self : DS1302) (h : list call) (p : pins) :
  NoDup [_clk_pin self; _io_pin self; _rst_pin self] ->
  (forall mode,
     Forall (data_pin_discipline self)
       (steps self p (calls_of (__init__ self mode) h)))
  /\ Forall (data_pin_discipline self)
       (steps self p (calls_of (read_datetime chip self) h))
  /\ (forall dt,
        Forall (data_pin_discipline self)
          (steps self p (calls_of (write_datetime self dt) h)))
  /\ Forall (data_pin_discipline self)
       (steps self p (calls_of (read_ram chip self) h))
  /\ (forall ram,
        Forall (data_pin_discipline self)
          (steps self p (calls_of (write_ram self ram) h))).
Proof.
  intros D. split; [|split; [|split; [|split]]].
  - intros mode. rewrite (runs_calls_of _ _ _ _ (init_run self mode h)).
    apply disciplined_app; [|apply disciplined_app];
      try (apply discipline_framed; [exact D|];
           apply disciplined_app; apply discipline_write_byte; exact D).
    intros q. cbn [steps].
    repeat (apply Forall_cons || apply Forall_nil); exact I.
  - rewrite (calls_of_snd _ _ _ (read_datetime_calls chip self h)).
    apply discipline_framed; [exact D|].
    apply disciplined_app;
      [apply discipline_write_byte | apply discipline_read_bytes]; exact D.
  - intros dt. rewrite (runs_calls_of _ _ _ _ (write_datetime_run self dt h)).
    apply discipline_framed; [exact D|].
    apply discipline_write_bytes. exact D.
  - destruct (read_ram_calls chip self h) as [n [_ ->]].
    apply discipline_framed; [exact D|].
    apply disciplined_app;
      [apply discipline_write_byte | apply discipline_read_bytes]; exact D.
  - intros ram. rewrite (runs_calls_of _ _ _ _ (write_ram_run self ram h)).
    apply discipline_framed; [exact D|].
    apply disciplined_app;
      [apply discipline_write_byte | apply discipline_write_bytes]; exact D.
Qed.

Lemma data_pin_is_used_in_its_direction_witness :
  Forall (data_pin_discipline default_pins)
    (steps default_pins idle_pins
       (calls_of (write_ram default_pins [1; 2; 3]) [])).
Proof.
  refine (proj2 (proj2 (proj2 (proj2
           (data_pin_is_used_in_its_direction (fun _ => 0) default_pins []
              idle_pins _)))) [1; 2; 3]).
  repeat constructor; cbn; intuition discriminate.
Defined.

(** ** Clock edges *)

Section ClockEdges.

Variable self : DS1302.
Hypothesis distinct : NoDup [_clk_pin self; _io_pin self; _rst_pin self].

Lemma same_level_refl l : same_level l l = true.
Proof. destruct l; cbn; [apply Z.eqb_refl | reflexivity]. Qed.

Lemma rises_app l a : forall b,
  rises l (a ++ b) = (rises l a + rises (last_level l a) b)%nat.
Proof.
  revert l. induction a as [|v a IH]; intros l b; [reflexivity|].
  cbn [app rises]. rewrite IH. unfold last_level. cbn [fold_left]. lia.
Qed.

Lemma last_level_app l a b :
  last_level l (a ++ b) = last_level (last_level l a) b.
Proof. unfold last_level. apply fold_left_app. Qed.

Lemma clk_outputs_app t1 t2 :
  clk_outputs self (t1 ++ t2) = clk_outputs self t1 ++ clk_outputs self t2.
Proof. unfold clk_outputs. apply flat_map_app. Qed.

Lemma rising_step p c :
  clock_by_output_only self c ->
  (if rising_edge self (p, c) then 1%nat else 0%nat)
  = rises (clk_level p) (clk_outputs self [c])
  /\ clk_level (drive self p c)
     = last_level (clk_level p) (clk_outputs self [c]).
Proof.
  intros Hc.
  assert (K : clk_outputs self [c] = [] ->
              clk_level (drive self p c) = clk_level p ->
              (if rising_edge self (p, c) then 1%nat else 0%nat)
              = rises (clk_level p) (clk_outputs self [c])
              /\ clk_level (drive self p c)
                 = last_level (clk_level p) (clk_outputs self [c])).
  { intros E1 E2. rewrite E1, E2.
    unfold rising_edge, clock_edge. cbn [fst snd].
    rewrite E2, same_level_refl. split; reflexivity. }
  destruct c as [m|ps d i|pin v|pin|ps|us]; try (apply K; reflexivity).
  - apply K; [reflexivity|].
    cbn [drive clk_level]. unfold level_after_setup.
    cbn in Hc. now rewrite Hc.
  - destruct (Z.eqb_spec pin (_clk_pin self)) as [-> | Hn].
    + unfold clk_outputs, rising_edge, clock_edge, last_level.
      cbn [flat_map fst snd drive clk_level]. rewrite Z.eqb_refl.
      cbn [app rises fold_left]. split; [|reflexivity].
      destruct (negb (same_level (clk_level p) (Some v))
                && same_level (Some v) (Some HIGH)); reflexivity.
    + apply Z.eqb_neq in Hn. apply K.
      * unfold clk_outputs. cbn [flat_map]. now rewrite Hn.
      * cbn [drive clk_level]. now rewrite Hn.
  - apply K; [reflexivity|].
    cbn [drive clk_level]. cbn in Hc. now rewrite Hc.
Qed.

(** Counting rising edges only needs the levels driven on the clock. *)
Lemma rising_edges_clk_outputs t : forall p,
  Forall (clock_by_output_only self) t ->
  rising_edges self p t = rises (clk_level p) (clk_outputs self t).
Proof.
  induction t as [|c t IH]; intros p F; [reflexivity|].
  inversion F as [|? ? Hc F']; subst.
  destruct (rising_step p c Hc) as [S1 S2].
  change (c :: t) with ([c] ++ t) at 2.
  rewrite clk_outputs_app, rises_app, <- S1, <- S2, <- (IH _ F').
  unfold rising_edges. cbn [steps filter].
  destruct (rising_edge self (p, c)); reflexivity.
Qed.

(** *** The clock levels of each part of a transaction *)

Lemma clk_outputs_bit_cells bits :
  clk_outputs self (flat_map (bit_cell self) bits)
  = List.concat (repeat [LOW; HIGH] (List.length bits)).
Proof.
  induction bits as [|b bits IH]; [reflexivity|].
  cbn [flat_map List.length repeat List.concat].
  rewrite clk_outputs_app, IH.
  unfold bit_cell, clk_outputs. cbn [flat_map app].
  rewrite Z.eqb_refl, (eqb_io_clk self distinct). reflexivity.
Qed.

Lemma clk_outputs_write_byte v :
  clk_outputs self (write_byte_calls self v)
  = List.concat (repeat [LOW; HIGH] 8).
Proof.
  unfold write_byte_calls.
  change (setup [_io_pin self] OUT None
            :: flat_map (bit_cell self) (bits_lsb_first 8 v))
    with ([setup [_io_pin self] OUT None]
            ++ flat_map (bit_cell self) (bits_lsb_first 8 v)).
  rewrite clk_outputs_app, clk_outputs_bit_cells, bits_lsb_first_length.
  reflexivity.
Qed.

Lemma clk_outputs_write_bytes bytes :
  clk_outputs self (write_bytes_calls self bytes)
  = List.concat (repeat (List.concat (repeat [LOW; HIGH] 8))
                   (List.length bytes)).
Proof.
  induction bytes as [|b bytes IH]; [reflexivity|].
  cbn [write_bytes_calls flat_map List.length repeat List.concat].
  rewrite clk_outputs_app, clk_outputs_write_byte.
  unfold write_bytes_calls in IH. now rewrite IH.
Qed.

Lemma clk_outputs_read_byte :
  clk_outputs self (read_byte_calls self)
  = List.concat (repeat [HIGH; LOW] 8).
Proof.
  unfold read_byte_calls, sample_cell, clk_outputs.
  cbn [repeat List.concat app flat_map].
  rewrite !Z.eqb_refl. reflexivity.
Qed.

Lemma clk_outputs_read_bytes n :
  clk_outputs self (read_bytes_calls self n)
  = List.concat (repeat (List.concat (repeat [HIGH; LOW] 8)) n).
Proof.
  induction n as [|n IH]; [reflexivity|].
  cbn [read_bytes_calls repeat List.concat].
  rewrite clk_outputs_app, clk_outputs_read_byte.
  unfold read_bytes_calls in IH. now rewrite IH.
Qed.

Lemma clk_outputs_framed body :
  clk_outputs self (framed self body)
  = [LOW] ++ clk_outputs self body ++ [LOW].
Proof.
  unfold framed. rewrite !clk_outputs_app. f_equal; [|f_equal].
  - unfold start_calls, clk_outputs. cbn [flat_map app].
    now rewrite Z.eqb_refl, (eqb_rst_clk self distinct).
  - unfold end_calls, clk_outputs. cbn [flat_map app].
    now rewrite Z.eqb_refl, (eqb_rst_clk self distinct).
Qed.

(** *** Counting *)

Lemma rises_written_bytes k : forall l,
  rises l (List.concat (repeat (List.concat (repeat [LOW; HIGH] 8)) k))
  = (8 * k)%nat
  /\ (k <> 0%nat ->
      last_level l
        (List.concat (repeat (List.concat (repeat [LOW; HIGH] 8)) k))
      = Some HIGH).
Proof.
  set (cells := List.concat (repeat [LOW; HIGH] 8)).
  assert (E : forall l, last_level l cells = Some HIGH) by reflexivity.
  assert (R : forall l, rises l cells = 8%nat).
  { intros [x|]; [|reflexivity]. unfold cells.
    cbn [repeat List.concat app rises same_level].
    destruct (x =? LOW); reflexivity. }
  induction k as [|k IH]; intros l; [split; [reflexivity | congruence]|].
  cbn [repeat List.concat]. rewrite rises_app, last_level_app, E, R.
  destruct (IH (Some HIGH)) as [IH1 IH2]. rewrite IH1. split; [lia|].
  intros _. destruct k as [|k]; [reflexivity | now apply IH2].
Qed.

Lemma rises_read_bytes k :
  rises (Some HIGH)
    (List.concat (repeat (List.concat (repeat [HIGH; LOW] 8)) (S k)))
  = (8 * S k - 1)%nat
  /\ last_level (Some HIGH)
       (List.concat (repeat (List.concat (repeat [HIGH; LOW] 8)) (S k)))
     = Some LOW.
Proof.
  set (cells := List.concat (repeat [HIGH; LOW] 8)).
  assert (E : forall l, last_level l cells = Some LOW) by reflexivity.
  assert (R : rises (Some LOW) cells = 8%nat) by reflexivity.
  assert (R' : rises (Some HIGH) cells = 7%nat) by reflexivity.
  assert (G : forall k,
    rises (Some LOW) (List.concat (repeat cells k)) = (8 * k)%nat
    /\ forall l, last_level (Some l) (List.concat (repeat cells (S k)))
                 = Some LOW).
  { clear k. induction k as [|k [IH1 IH2]].
    - split; [reflexivity|]. intros l. cbn [repeat List.concat].
      now rewrite app_nil_r.
    - split.
      + cbn [repeat List.concat]. rewrite rises_app, E, R, IH1. lia.
      + intros l.
        change (repeat cells (S (S k))) with (cells :: repeat cells (S k)).
        cbn [List.concat]. rewrite last_level_app, E. apply IH2. }
  destruct (G k) as [G1 G2]. split; [|apply G2].
  cbn [repeat List.concat]. rewrite rises_app, E, R', G1. lia.
Qed.

Lemma exchange_moves_clock_by_output c :
  exchange_call self c -> clock_by_output_only self c.
Proof.
  destruct c as [m|ps d i|pin v|pin|ps|us]; cbn; try tauto.
  intros ->. unfold mem. cbn [existsb].
  now rewrite (eqb_clk_io self distinct).
Qed.

Lemma framed_moves_clock_by_output body :
  Forall (exchange_call self) body ->
  Forall (clock_by_output_only self) (framed self body).
Proof.
  intros F. unfold framed. apply Forall_app. split; [|apply Forall_app; split].
  - unfold start_calls. repeat (apply Forall_cons || apply Forall_nil); exact I.
  - eapply Forall_impl; [|exact F]. apply exchange_moves_clock_by_output.
  - unfold end_calls.
    repeat (apply Forall_cons || apply Forall_nil); try exact I.
    cbn. unfold mem. cbn [existsb]. now rewrite (eqb_clk_io self distinct).
Qed.

(** A transaction that writes [1 + n] bytes. *)
Lemma rising_edges_write_transaction p0 cmd bytes :
  clk_level p0 = Some LOW ->
  rising_edges self p0
    (framed self (write_byte_calls self cmd ++ write_bytes_calls self bytes))
  = (8 * (1 + List.length bytes))%nat.
Proof.
  intros Hp.
  rewrite rising_edges_clk_outputs
    by (apply framed_moves_clock_by_output, Forall_app; split;
        [now apply exchange_write_byte | now apply exchange_write_bytes]).
  rewrite Hp, clk_outputs_framed.
  rewrite <- (write_bytes_calls_cons self cmd bytes), clk_outputs_write_bytes.
  rewrite !rises_app.
  change (last_level (Some LOW) [LOW]) with (Some LOW).
  change (rises (Some LOW) [LOW]) with 0%nat.
  destruct (rises_written_bytes (List.length (cmd :: bytes)) (Some LOW))
    as [R L].
  rewrite R, L by discriminate.
  change (rises (Some HIGH) [LOW]) with 0%nat.
  cbn [List.length]. lia.
Qed.

(** A transaction that writes the command byte and reads [1 + k] bytes. *)
Lemma rising_edges_read_transaction p0 cmd k :
  clk_level p0 = Some LOW ->
  rising_edges self p0
    (framed self (write_byte_calls self cmd ++ read_bytes_calls self (S k)))
  = (8 + (8 * S k - 1))%nat.
Proof.
  intros Hp.
  rewrite rising_edges_clk_outputs
    by (apply framed_moves_clock_by_output, Forall_app; split;
        [now apply exchange_write_byte | now apply exchange_read_bytes]).
  rewrite Hp, clk_outputs_framed, clk_outputs_app.
  rewrite clk_outputs_write_byte, clk_outputs_read_bytes.
  rewrite !rises_app, !last_level_app.
  change (last_level (Some LOW) [LOW]) with (Some LOW).
  change (rises (Some LOW) [LOW]) with 0%nat.
  change (last_level (Some LOW) (List.concat (repeat [LOW; HIGH] 8)))
    with (Some HIGH).
  change (rises (Some LOW) (List.concat (repeat [LOW; HIGH] 8))) with 8%nat.
  destruct (rises_read_bytes k) as [R L]. rewrite R, L.
  change (rises (Some LOW) [LOW]) with 0%nat. lia.
Qed.

End ClockEdges.

(** X11.  With three distinct pins and the clock low at the start, a
    transaction that writes [n] bytes in all raises the clock exactly
    [8 * n] times (80 for [write_datetime], [8 * (1 + min(len(ram), 31))]
    for [write_ram]), and a burst read of [n] bytes raises it 8 times for
    the command and [8 * n - 1] times afterwards: the first bit read is the
    one the chip presents on the falling edge that ends the command byte,
    with no clock pulse of its own.  That is 63 in all for [read_datetime];
    for [read_ram] it is 255 when the data line reads as 0 or 1, and
    [8 * n + 7] for the [n] bytes, between 1 and 31, that it reads on any
    data line. *)
Theorem clock_rises_per_transaction (chip : list call -> Z) (self : DS1302)
    (h : list call) (p0 : pins) :
  NoDup [_clk_pin self; _io_pin self; _rst_pin self] ->
  clk_level p0 = Some LOW ->
  rising_edges self p0 (calls_of (read_datetime chip self) h) = 63%nat
  /\ (forall dt,
        rising_edges self p0 (calls_of (write_datetime self dt) h) = 80%nat)
  /\ (bit_chip chip ->
      rising_edges self p0 (calls_of (read_ram chip self) h) = 255%nat)
  /\ (exists n,
        (1 <= n <= 31)%nat
        /\ rising_edges self p0 (calls_of (read_ram chip self) h)
           = (8 * n + 7)%nat)
  /\ (forall ram,
        rising_edges self p0 (calls_of (write_ram self ram) h)
        = (8 * (1 + Nat.min (List.length ram) 31))%nat).
Proof.
  intros D Hp. split; [|split; [|split; [|split]]].
  - rewrite (calls_of_snd _ _ _ (read_datetime_calls chip self h)).
    now rewrite (rising_edges_read_transaction self D p0 _ 6 Hp).
  - intros dt. rewrite (runs_calls_of _ _ _ _ (write_datetime_run self dt h)).
    rewrite write_bytes_calls_cons.
    now rewrite (rising_edges_write_transaction self D p0 _ _ Hp).
  - intros Hc. destruct (read_ram_run chip self h Hc) as [ram [R _]].
    rewrite (runs_calls_of _ _ _ _ R).
    now rewrite (rising_edges_read_transaction self D p0 _ 30 Hp).
  - destruct (read_ram_calls chip self h) as [n [Hn ->]].
    exists n. split; [exact Hn|].
    destruct n as [|k]; [lia|].
    rewrite (rising_edges_read_transaction self D p0 _ k Hp). lia.
  - intros ram. rewrite (runs_calls_of _ _ _ _ (write_ram_run self ram h)).
    rewrite (rising_edges_write_transaction self D p0 _ _ Hp).
    rewrite length_firstn, Nat.min_comm. reflexivity.
Qed.

Lemma clock_rises_per_transaction_witness :
  rising_edges default_pins idle_pins
    (calls_of (read_ram (fun _ => 0) default_pins) []) = 255%nat.
Proof.
  refine (proj1 (proj2 (proj2
            (clock_rises_per_transaction (fun _ => 0) default_pins []
               idle_pins _ _))) _).
  - repeat constructor; cbn; intuition discriminate.
  - reflexivity.
  - intros h. left. reflexivity.
Defined.

(** ** The settle delay *)

Section Pacing.

Variable self : DS1302.
Hypothesis distinct : NoDup [_clk_pin self; _io_pin self; _rst_pin self].

(** *** The monitor is sound *)

Lemma pace_rest_before_edge between : forall p c2 after,
  pace self p false (between ++ c2 :: after) <> None ->
  clock_edge self (replay self p between, c2) = true ->
  In (sleep CLK_DELAY) between.
Proof.
  induction between as [|c between IH]; intros p c2 after Hp He.
  - cbn [app pace] in Hp. cbn in He. rewrite He in Hp. congruence.
  - cbn [app pace] in Hp.
    destruct (clock_edge self (p, c)); [congruence|].
    cbn [orb] in Hp.
    destruct c as [m|ps d i|pin v|pin|ps|us];
      try (right; eapply IH; [exact Hp | exact He]).
    destruct (Z.eqb_spec us CLK_DELAY) as [-> | _]; [now left|].
    right. eapply IH; [exact Hp | exact He].
Qed.

Lemma pace_after_edge before : forall p r c1 rest,
  pace self p r (before ++ c1 :: rest) <> None ->
  clock_edge self (replay self p before, c1) = true ->
  pace self (drive self (replay self p before) c1) false rest <> None.
Proof.
  induction before as [|c before IH]; intros p r c1 rest Hp He.
  - cbn [app pace] in Hp. cbn in He |- *. rewrite He in Hp.
    destruct r; [exact Hp | congruence].
  - cbn [app pace] in Hp.
    change (replay self p (c :: before))
      with (replay self (drive self p c) before) in *.
    destruct (clock_edge self (p, c)).
    + destruct r; [|congruence]. eapply IH; [exact Hp | exact He].
    + eapply IH; [exact Hp | exact He].
Qed.

Lemma pace_sound p r t : pace self p r t <> None -> paced self p t.
Proof.
  intros Hp before c1 between c2 after -> E1 E2.
  pose proof (pace_after_edge before p r c1 _ Hp E1) as H1.
  eapply pace_rest_before_edge; [exact H1|].
  rewrite replay_app in E2. exact E2.
Qed.

(** *** The monitor on the calls of the driver *)

Lemma pace_app t1 : forall p r t2,
  pace self p r (t1 ++ t2)
  = match pace self p r t1 with
    | Some r' => pace self (replay self p t1) r' t2
    | None => None
    end.
Proof.
  induction t1 as [|c t1 IH]; intros p r t2; [reflexivity|].
  cbn [app pace].
  change (replay self p (c :: t1)) with (replay self (drive self p c) t1).
  destruct (clock_edge self (p, c)); [destruct r|]; rewrite ?IH; reflexivity.
Qed.

Lemma pace_sleep p r t :
  pace self p r (sleep CLK_DELAY :: t) = pace self p true t.
Proof.
  cbn [pace]. unfold clock_edge. cbn [fst snd drive].
  rewrite same_level_refl. cbn [negb].
  now rewrite Z.eqb_refl, orb_true_r.
Qed.

Lemma pace_clock p r v t :
  pace self p r (output (_clk_pin self) v :: t)
  = if same_level (clk_level p) (Some v)
    then pace self (drive self p (output (_clk_pin self) v)) r t
    else if r
         then pace self (drive self p (output (_clk_pin self) v)) false t
         else None.
Proof.
  cbn [pace]. unfold clock_edge. cbn [fst snd drive clk_level].
  rewrite Z.eqb_refl.
  destruct (same_level (clk_level p) (Some v)); cbn [negb];
    [now rewrite orb_false_r | reflexivity].
Qed.

Lemma clk_after_output p v :
  clk_level (drive self p (output (_clk_pin self) v)) = Some v.
Proof. cbn [drive clk_level]. now rewrite Z.eqb_refl. Qed.

Lemma pace_io_output p r b t :
  pace self p r (output (_io_pin self) b :: t)
  = pace self (drive self p (output (_io_pin self) b)) r t
  /\ clk_level (drive self p (output (_io_pin self) b)) = clk_level p.
Proof.
  cbn [pace]. unfold clock_edge. cbn [fst snd drive clk_level].
  rewrite (eqb_io_clk self distinct), same_level_refl. cbn [negb].
  now rewrite orb_false_r.
Qed.

Lemma pace_rst_output p r v t :
  pace self p r (output (_rst_pin self) v :: t)
  = pace self (drive self p (output (_rst_pin self) v)) r t
  /\ clk_level (drive self p (output (_rst_pin self) v)) = clk_level p.
Proof.
  cbn [pace]. unfold clock_edge. cbn [fst snd drive clk_level].
  rewrite (eqb_rst_clk self distinct), same_level_refl. cbn [negb].
  now rewrite orb_false_r.
Qed.

Lemma pace_io_setup p r d t :
  pace self p r (setup [_io_pin self] d None :: t)
  = pace self (drive self p (setup [_io_pin self] d None)) r t
  /\ clk_level (drive self p (setup [_io_pin self] d None)) = clk_level p.
Proof.
  cbn [pace]. unfold clock_edge. cbn [fst snd drive clk_level].
  unfold level_after_setup, mem. cbn [existsb].
  rewrite (eqb_clk_io self distinct). cbn [orb].
  rewrite same_level_refl. cbn [negb]. now rewrite (orb_false_r r).
Qed.

Lemma pace_input p r pin t :
  pace self p r (input pin :: t) = pace self p r t.
Proof.
  cbn [pace]. unfold clock_edge. cbn [fst snd drive].
  rewrite same_level_refl. cbn [negb]. now rewrite orb_false_r.
Qed.

Lemma replay_cons p c t :
  replay self p (c :: t) = replay self (drive self p c) t.
Proof. reflexivity. Qed.

(** One written bit: rested afterwards, clock high. *)
Lemma pace_bit_cell p r b t :
  r = true \/ clk_level p = Some LOW ->
  pace self p r (bit_cell self b ++ t)
  = pace self (replay self p (bit_cell self b)) true t
  /\ clk_level (replay self p (bit_cell self b)) = Some HIGH.
Proof.
  intros H. unfold bit_cell, replay. cbn [app fold_left]. split.
  - rewrite pace_clock.
    assert (E : (if same_level (clk_level p) (Some LOW)
                 then pace self (drive self p (output (_clk_pin self) LOW)) r
                        (sleep CLK_DELAY :: output (_io_pin self) b
                           :: output (_clk_pin self) HIGH
                           :: sleep CLK_DELAY :: t)
                 else if r
                      then pace self
                             (drive self p (output (_clk_pin self) LOW)) false
                             (sleep CLK_DELAY :: output (_io_pin self) b
                                :: output (_clk_pin self) HIGH
                                :: sleep CLK_DELAY :: t)
                      else None)
                = pace self (drive self p (output (_clk_pin self) LOW)) true
                    (output (_io_pin self) b
                       :: output (_clk_pin self) HIGH
                       :: sleep CLK_DELAY :: t)).
    { destruct (same_level (clk_level p) (Some LOW)) eqn:S.
      - apply pace_sleep.
      - destruct H as [-> | H]; [apply pace_sleep|].
        rewrite H in S. discriminate. }
    rewrite E. clear E.
    change (drive self (drive self p (output (_clk_pin self) LOW))
              (sleep CLK_DELAY))
      with (drive self p (output (_clk_pin self) LOW)).
    destruct (pace_io_output (drive self p (output (_clk_pin self) LOW)) true b
                (output (_clk_pin self) HIGH :: sleep CLK_DELAY :: t))
      as [-> L].
    rewrite pace_clock, L, clk_after_output.
    change (same_level (Some LOW) (Some HIGH)) with false. cbn iota.
    apply pace_sleep.
  - cbn [drive clk_level]. now rewrite Z.eqb_refl.
Qed.

Lemma pace_bit_cells bits : forall p r b t,
  r = true \/ clk_level p = Some LOW ->
  pace self p r (flat_map (bit_cell self) (b :: bits) ++ t)
  = pace self (replay self p (flat_map (bit_cell self) (b :: bits))) true t
  /\ clk_level (replay self p (flat_map (bit_cell self) (b :: bits)))
     = Some HIGH.
Proof.
  induction bits as [|b' bits IH]; intros p r b t H.
  - cbn [flat_map]. rewrite app_nil_r. now apply pace_bit_cell.
  - change (flat_map (bit_cell self) (b :: b' :: bits))
      with (bit_cell self b ++ flat_map (bit_cell self) (b' :: bits)).
    rewrite <- app_assoc, replay_app.
    destruct (pace_bit_cell p r b
                (flat_map (bit_cell self) (b' :: bits) ++ t) H) as [-> _].
    apply IH. now left.
Qed.

(** One written byte. *)
Lemma pace_write_byte p r v t :
  r = true \/ clk_level p = Some LOW ->
  pace self p r (write_byte_calls self v ++ t)
  = pace self (replay self p (write_byte_calls self v)) true t
  /\ clk_level (replay self p (write_byte_calls self v)) = Some HIGH.
Proof.
  intros H. unfold write_byte_calls.
  change (bits_lsb_first 8 v)
    with (Z.land v 1 :: bits_lsb_first 7 (Z.shiftr v 1)).
  cbn [app].
  destruct (pace_io_setup p r OUT
              (flat_map (bit_cell self)
                 (Z.land v 1 :: bits_lsb_first 7 (Z.shiftr v 1)) ++ t))
    as [-> L].
  rewrite !replay_cons.
  apply pace_bit_cells. rewrite L. exact H.
Qed.

Lemma pace_write_bytes bytes : forall p t,
  pace self p true (write_bytes_calls self bytes ++ t)
  = pace self (replay self p (write_bytes_calls self bytes)) true t.
Proof.
  induction bytes as [|b bytes IH]; intros p t; [reflexivity|].
  cbn [write_bytes_calls flat_map].
  rewrite <- app_assoc, replay_app.
  destruct (pace_write_byte p true b
              (flat_map (write_byte_calls self) bytes ++ t)) as [-> _];
    [now left|].
  apply IH.
Qed.

(** One sampled bit: rested afterwards, clock low. *)
Lemma pace_sample_cell p t :
  pace self p true (sample_cell self ++ t)
  = pace self (replay self p (sample_cell self)) true t
  /\ clk_level (replay self p (sample_cell self)) = Some LOW.
Proof.
  unfold sample_cell, replay. cbn [app fold_left]. split.
  - rewrite pace_clock.
    assert (E : (if same_level (clk_level p) (Some HIGH)
                 then pace self (drive self p (output (_clk_pin self) HIGH))
                        true
                        (sleep CLK_DELAY :: output (_clk_pin self) LOW
                           :: sleep CLK_DELAY :: input (_io_pin self) :: t)
                 else pace self (drive self p (output (_clk_pin self) HIGH))
                        false
                        (sleep CLK_DELAY :: output (_clk_pin self) LOW
                           :: sleep CLK_DELAY :: input (_io_pin self) :: t))
                = pace self (drive self p (output (_clk_pin self) HIGH)) true
                    (output (_clk_pin self) LOW
                       :: sleep CLK_DELAY :: input (_io_pin self) :: t)).
    { destruct (same_level (clk_level p) (Some HIGH)); apply pace_sleep. }
    rewrite E. clear E.
    rewrite pace_clock, clk_after_output.
    change (same_level (Some HIGH) (Some LOW)) with false. cbn iota.
    rewrite pace_sleep, pace_input. reflexivity.
  - cbn [drive clk_level]. now rewrite Z.eqb_refl.
Qed.

Lemma pace_sample_cells n : forall p t,
  pace self p true (List.concat (repeat (sample_cell self) n) ++ t)
  = pace self (replay self p (List.concat (repeat (sample_cell self) n)))
      true t.
Proof.
  induction n as [|n IH]; intros p t; [reflexivity|].
  cbn [repeat List.concat]. rewrite <- app_assoc, replay_app.
  destruct (pace_sample_cell p
              (List.concat (repeat (sample_cell self) n) ++ t)) as [-> _].
  apply IH.
Qed.

Lemma pace_read_byte p t :
  pace self p true (read_byte_calls self ++ t)
  = pace self (replay self p (read_byte_calls self)) true t.
Proof.
  unfold read_byte_calls. cbn [app].
  destruct (pace_io_setup p true IN
              (List.concat (repeat (sample_cell self) 8) ++ t)) as [-> _].
  rewrite replay_cons. apply pace_sample_cells.
Qed.

Lemma pace_read_bytes n : forall p t,
  pace self p true (read_bytes_calls self n ++ t)
  = pace self (replay self p (read_bytes_calls self n)) true t.
Proof.
  induction n as [|n IH]; intros p t; [reflexivity|].
  cbn [read_bytes_calls repeat List.concat].
  rewrite <- app_assoc, replay_app, pace_read_byte. apply IH.
Qed.

(** The end of a transaction, reached rested. *)
Lemma pace_end p : pace self p true (end_calls self) <> None.
Proof.
  unfold end_calls.
  destruct (pace_io_setup p true IN
              [output (_clk_pin self) LOW; output (_rst_pin self) LOW])
    as [-> _].
  rewrite pace_clock.
  destruct (same_level _ _);
    match goal with
    | |- pace _ ?q ?r [output (_rst_pin self) LOW] <> None =>
        destruct (pace_rst_output q r LOW []) as [-> _]
    end; discriminate.
Qed.

(** A whole transaction, started with the clock low. *)
Lemma pace_framed p r cmd rest :
  clk_level p = Some LOW ->
  (forall q t, pace self q true (rest ++ t)
               = pace self (replay self q rest) true t) ->
  pace self p r (framed self (write_byte_calls self cmd ++ rest)) <> None.
Proof.
  intros Hp Hrest. unfold framed, start_calls. cbn [app].
  rewrite pace_clock, Hp. change (same_level (Some LOW) (Some LOW)) with true.
  cbn iota.
  destruct (pace_rst_output (drive self p (output (_clk_pin self) LOW)) r HIGH
              ((write_byte_calls self cmd ++ rest) ++ end_calls self))
    as [-> L].
  rewrite clk_after_output in L.
  rewrite <- app_assoc.
  destruct (pace_write_byte
              (drive self (drive self p (output (_clk_pin self) LOW))
                 (output (_rst_pin self) HIGH))
              r cmd (rest ++ end_calls self)) as [-> _]; [now right|].
  rewrite Hrest. apply pace_end.
Qed.

End Pacing.

(** X12.  With three distinct pins and the clock low at the start, in each
    of the four operations the driver sleeps [CLK_DELAY] between any two
    changes of the clock level: no clock phase is shorter than the settle
    delay. *)
Theorem settle_delay_between_clock_edges (chip : list call -> Z)
    (self : DS1302) (h : list call) (p0 : pins) :
  NoDup [_clk_pin self; _io_pin self; _rst_pin self] ->
  clk_level p0 = Some LOW ->
  paced self p0 (calls_of (read_datetime chip self) h)
  /\ (forall dt, paced self p0 (calls_of (write_datetime self dt) h))
  /\ paced self p0 (calls_of (read_ram chip self) h)
  /\ (forall ram, paced self p0 (calls_of (write_ram self ram) h)).
Proof.
  intros D Hp. split; [|split; [|split]].
  - rewrite (calls_of_snd _ _ _ (read_datetime_calls chip self h)).
    apply (pace_sound self p0 false), (pace_framed self D); [exact Hp|].
    intros q t. apply (pace_read_bytes self D).
  - intros dt. rewrite (runs_calls_of _ _ _ _ (write_datetime_run self dt h)).
    rewrite write_bytes_calls_cons.
    apply (pace_sound self p0 false), (pace_framed self D); [exact Hp|].
    intros q t. apply (pace_write_bytes self D).
  - destruct (read_ram_calls chip self h) as [n [_ ->]].
    apply (pace_sound self p0 false), (pace_framed self D); [exact Hp|].
    intros q t. apply (pace_read_bytes self D).
  - intros ram. rewrite (runs_calls_of _ _ _ _ (write_ram_run self ram h)).
    apply (pace_sound self p0 false), (pace_framed self D); [exact Hp|].
    intros q t. apply (pace_write_bytes self D).
Qed.

Lemma settle_delay_between_clock_edges_witness :
  paced default_pins idle_pins
    (calls_of (read_ram (fun _ => 0) default_pins) []).
Proof.
  refine (proj1 (proj2 (proj2 (settle_delay_between_clock_edges
                                 (fun _ => 0) default_pins [] idle_pins _ _)))).
  - repeat constructor; cbn; intuition discriminate.
  - reflexivity.
Defined.

(** ** What travels on the data line *)

Lemma io_writes_write_bytes self bytes :
  _io_pin self <> _clk_pin self ->
  io_writes self (write_bytes_calls self bytes)
  = flat_map (bits_lsb_first 8) bytes.
Proof.
  intros Hn. induction bytes as [|b bytes IH]; [reflexivity|].
  cbn [write_bytes_calls flat_map].
  rewrite io_writes_app, io_writes_write_byte by exact Hn.
  unfold write_bytes_calls in IH. now rewrite IH.
Qed.

Lemma reads_write_bytes self bytes :
  reads (write_bytes_calls self bytes) = 0%nat.
Proof.
  induction bytes as [|b bytes IH]; [reflexivity|].
  cbn [write_bytes_calls flat_map]. rewrite reads_app, reads_write_byte.
  exact IH.
Qed.

Lemma io_writes_read_bytes self n :
  _io_pin self <> _clk_pin self ->
  io_writes self (read_bytes_calls self n) = [].
Proof.
  intros Hn. induction n as [|n IH]; [reflexivity|].
  cbn [read_bytes_calls repeat List.concat]. rewrite io_writes_app.
  unfold read_bytes_calls in IH. rewrite IH, app_nil_r.
  unfold read_byte_calls, sample_cell, io_writes.
  cbn [repeat List.concat app flat_map].
  destruct (Z.eqb_spec (_clk_pin self) (_io_pin self)) as [E|_];
    [now symmetry in E|].
  reflexivity.
Qed.

Lemma reads_read_bytes self n : reads (read_bytes_calls self n) = (8 * n)%nat.
Proof.
  induction n as [|n IH]; [reflexivity|].
  cbn [read_bytes_calls repeat List.concat].
  rewrite reads_app, reads_read_byte.
  unfold read_bytes_calls in IH. rewrite IH. lia.
Qed.

Lemma io_writes_framed self body :
  NoDup [_clk_pin self; _io_pin self; _rst_pin self] ->
  io_writes self (framed self body) = io_writes self body.
Proof.
  intros D. unfold framed, start_calls, end_calls.
  rewrite !io_writes_app. unfold io_writes at 1 3. cbn [flat_map app].
  rewrite (eqb_clk_io self D), (eqb_rst_io self D). cbn [app].
  apply app_nil_r.
Qed.

Lemma reads_framed self body : reads (framed self body) = reads body.
Proof.
  unfold framed, start_calls, end_calls. rewrite !reads_app.
  cbn [reads filter List.length]. lia.
Qed.

(** X13.  With three distinct pins, the levels a write operation drives on
    the data pin are exactly the bits of the command byte followed by the
    bits of the data bytes, each byte lowest bit first, and it never
    samples the pin; a read operation drives the data pin for the eight
    bits of its command byte only and then samples it eight times per byte
    read: 56 samples in [read_datetime]; in [read_ram] 248 samples when the
    data line reads as 0 or 1, and [8 * n] for the [n] bytes, between 1 and
    31, that it reads on any data line. *)
Theorem data_line_traffic (chip : list call -> Z) (self : DS1302)
    (h : list call) :
  NoDup [_clk_pin self; _io_pin self; _rst_pin self] ->
  (forall ram,
     io_writes self (calls_of (write_ram self ram) h)
     = flat_map (bits_lsb_first 8) (RAW_BURST_WRITE :: firstn 31 ram)
     /\ reads (calls_of (write_ram self ram) h) = 0%nat)
  /\ (forall dt,
        valid dt = true ->
        io_writes self (calls_of (write_datetime self dt) h)
        = flat_map (bits_lsb_first 8)
            (REG_BURST_WRITE :: map bcd (wire_fields dt) ++ [0; 0])
        /\ reads (calls_of (write_datetime self dt) h) = 0%nat)
  /\ (io_writes self (calls_of (read_ram chip self) h)
      = bits_lsb_first 8 RAM_BURST_READ
      /\ (bit_chip chip ->
          reads (calls_of (read_ram chip self) h) = 248%nat)
      /\ exists n,
           (1 <= n <= 31)%nat
           /\ reads (calls_of (read_ram chip self) h) = (8 * n)%nat)
  /\ (io_writes self (calls_of (read_datetime chip self) h)
      = bits_lsb_first 8 REG_BURST_READ
      /\ reads (calls_of (read_datetime chip self) h) = 56%nat).
Proof.
  intros D.
  assert (Hn : _io_pin self <> _clk_pin self)
    by (intros E; now apply (clk_not_io self D)).
  split; [|split; [|split]].
  - intros ram. rewrite (runs_calls_of _ _ _ _ (write_ram_run self ram h)).
    rewrite <- write_bytes_calls_cons.
    rewrite io_writes_framed, reads_framed by exact D.
    rewrite io_writes_write_bytes, reads_write_bytes by exact Hn.
    split; reflexivity.
  - intros dt Hv.
    rewrite (runs_calls_of _ _ _ _ (write_datetime_valid_run self dt h Hv)).
    rewrite io_writes_framed, reads_framed by exact D.
    rewrite io_writes_write_bytes, reads_write_bytes by exact Hn.
    split; reflexivity.
  - destruct (read_ram_calls chip self h) as [n [Hb E]].
    split; [|split].
    + rewrite E, io_writes_framed by exact D.
      rewrite io_writes_app, io_writes_write_byte, io_writes_read_bytes
        by exact Hn.
      apply app_nil_r.
    + intros Hc. destruct (read_ram_run chip self h Hc) as [ram [R _]].
      rewrite (runs_calls_of _ _ _ _ R), reads_framed.
      rewrite reads_app, reads_write_byte, reads_read_bytes. reflexivity.
    + exists n. split; [exact Hb|].
      rewrite E, reads_framed.
      rewrite reads_app, reads_write_byte, reads_read_bytes. reflexivity.
  - rewrite (calls_of_snd _ _ _ (read_datetime_calls chip self h)).
    rewrite io_writes_framed, reads_framed by exact D.
    rewrite io_writes_app, reads_app, io_writes_write_byte, reads_write_byte,
      io_writes_read_bytes, reads_read_bytes by exact Hn.
    rewrite app_nil_r. split; reflexivity.
Qed.

Lemma data_line_traffic_witness :
  (io_writes default_pins
     (calls_of (write_datetime default_pins monday_2024) [])
   = flat_map (bits_lsb_first 8)
       (REG_BURST_WRITE :: map bcd (wire_fields monday_2024) ++ [0; 0])
   /\ reads (calls_of (write_datetime default_pins monday_2024) []) = 0%nat)
  /\ reads (calls_of (read_ram (fun _ => 0) default_pins) []) = 248%nat.
Proof.
  assert (D : NoDup [_clk_pin default_pins; _io_pin default_pins;
                     _rst_pin default_pins])
    by (repeat constructor; cbn; intuition discriminate).
  split.
  - refine (proj1 (proj2 (data_line_traffic (fun _ => 0) default_pins [] D))
              monday_2024 _).
    reflexivity.
  - refine (proj1 (proj2 (proj1 (proj2 (proj2
              (data_line_traffic (fun _ => 0) default_pins [] D))))) _).
    intros h. left. reflexivity.
Defined.

(** ** Construction *)

(** X14.  With three distinct pins, from whatever state the pins are in,
    [__init__] first sets clock and reset as outputs at low level and then
    runs two transactions, 0x8E 0x00 (write protection off) and 0x90 0x00
    (charger off); each of them is framed like a data operation: reset is
    high at every clock edge and is dropped only with the data pin in
    input mode. *)
Theorem init_transactions_are_framed (self : DS1302) (mode : numbering)
    (h : list call) (p : pins) :
  NoDup [_clk_pin self; _io_pin self; _rst_pin self] ->
  let configure :=
    [setmode mode; setup [_clk_pin self; _rst_pin self] OUT (Some LOW)] in
  let unprotect :=
    framed self (write_byte_calls self WP_REG_WRITE ++ write_byte_calls self 0)
  in
  let uncharge :=
    framed self (write_byte_calls self CHR_REG_WRITE ++ write_byte_calls self 0)
  in
  calls_of (__init__ self mode) h = configure ++ unprotect ++ uncharge
  /\ clk_level (replay self p configure) = Some LOW
  /\ rst_level (replay self p configure) = Some LOW
  /\ framing self (replay self p configure) unprotect
  /\ framing self (replay self p (configure ++ unprotect)) uncharge.
Proof.
  intros D. cbv zeta.
  assert (C : clk_level
                (replay self p
                   [setmode mode;
                    setup [_clk_pin self; _rst_pin self] OUT (Some LOW)])
              = Some LOW).
  { unfold replay. cbn [fold_left drive clk_level].
    unfold level_after_setup, mem. cbn [existsb].
    now rewrite Z.eqb_refl. }
  split; [eapply runs_calls_of, init_run|].
  split; [exact C|].
  split.
  { unfold replay. cbn [fold_left drive rst_level].
    unfold level_after_setup, mem. cbn [existsb].
    rewrite Z.eqb_refl, orb_true_r. reflexivity. }
  split.
  - apply framed_framing; [exact D | exact C | now apply exchange_write_byte].
  - rewrite replay_app, framed_ends_idle.
    apply framed_framing;
      [exact D | reflexivity | now apply exchange_write_byte].
Qed.

Lemma init_transactions_are_framed_witness :
  framing default_pins
    (replay default_pins
       {| clk_level := None; rst_level := None; io_mode := None |}
       [setmode BCM; setup [4; 27] OUT (Some LOW)])
    (framed default_pins
       (write_byte_calls default_pins 0x8E ++ write_byte_calls default_pins 0)).
Proof.
  apply (init_transactions_are_framed default_pins BCM []
           {| clk_level := None; rst_level := None; io_mode := None |}).
  repeat constructor; cbn; intuition discriminate.
Defined.
